(** * H2OFastTests: the registration, execution and classification engine

    A shallow embedding of [include/H2OFastTests.hpp] (namespace
    [H2OFastTests::detail]) and the properties of its test runner.

    - C++ exceptions are an explicit result ([Val] / [Exc]) of a state
      monad; [try]/[catch] is a combinator that walks the handler list
      in order, as the language does.
    - [double] and [float] are IEEE 754 binary64 and binary32 values
      ([spec_float], with the operations of SpecFloat).
    - A [std::reference_wrapper<const Test>] kept in a bucket is the
      position of the test object in the scenario's [TestList]: the
      object itself lives in the registry and is mutated in place. *)

From Stdlib Require Import ZArith Lia SpecFloat.
From stdpp Require Import base option list strings pretty gmap.

Set Default Proof Using "Type".

(** ** Exception objects *)

(** The type of a thrown object: its name and, for a class that has
    one, its public base class. *)
Inductive ExnType :=
| Root (name : string)
| Derived (name : string) (base : ExnType).

Fixpoint ExnType_eqb (a b : ExnType) : bool :=
  match a, b with
  | Root n1, Root n2 => String.eqb n1 n2
  | Derived n1 b1, Derived n2 b2 => String.eqb n1 n2 && ExnType_eqb b1 b2
  | _, _ => false
  end.

(** Does the clause [catch (h)] (or [catch (const h&)]) handle a thrown
    object of type [thrown]?  It does when the types are the same or
    [h] is a public base class of [thrown]. *)
Fixpoint handles (h thrown : ExnType) : bool :=
  ExnType_eqb h thrown ||
  match thrown with
  | Derived _ b => handles h b
  | Root _ => false
  end.

Definition std_exception : ExnType := Root "std::exception".
Definition std_logic_error : ExnType := Derived "std::logic_error" std_exception.
Definition std_domain_error : ExnType := Derived "std::domain_error" std_logic_error.
Definition std_runtime_error : ExnType := Derived "std::runtime_error" std_exception.
Definition std_bad_alloc : ExnType := Derived "std::bad_alloc" std_exception.
(** [class GenericTestFailure : public std::exception {}] *)
Definition GenericTestFailure : ExnType := Derived "GenericTestFailure" std_exception.
(** [class TestFailure : public GenericTestFailure] (every instantiation) *)
Definition TestFailure_type : ExnType := Derived "TestFailure" GenericTestFailure.
(** A thrown value that is not a class object, as in [throw 42]. *)
Definition int_type : ExnType := Root "int".

(** [type_helper<Type>::name()] *)
Definition type_name (t : ExnType) : string :=
  match t with Root n | Derived n _ => n end.

Definition TAB : string := String (Ascii.ascii_of_nat 9) EmptyString.
Definition endl : string := String (Ascii.ascii_of_nat 10) EmptyString.

(** ** LineInfo *)

Record LineInfo := {
  file_ : string;
  func_ : string;
  line_ : Z;
  init_ : bool
}.

(** [LineInfo()] *)
Definition LineInfo_default : LineInfo :=
  {| file_ := EmptyString; func_ := EmptyString; line_ := 0; init_ := false |}.

Definition isInit (l : LineInfo) : bool := init_ l.

(** [operator<<(std::ostream&, const LineInfo&)] *)
Definition LineInfo_show (l : LineInfo) : string :=
  if isInit l then file_ l +:+ ":" +:+ pretty (line_ l) +:+ " " +:+ func_ l else EmptyString.

(** ** TestFailure *)

Inductive FailureType := equal | different | exception.

(** A [TestFailure<ValueTypeL, ValueTypeR, ExceptionType>] object.
    [shown_] holds what [operator<<] prints for [reached_] and
    [expected_] when both value types are streamable, and nothing when
    one of them is not; [exception_type_] is the [ExceptionType]
    argument, [None] standing for [void]. *)
Record TestFailure := {
  message_ : string;
  shown_ : option (string * string);
  failure_type_ : FailureType;
  exception_type_ : option ExnType
}.

(** [additionalInfos<Streamable, Exception>::get] *)
Definition additionalInfos (f : TestFailure) : string :=
  match shown_ f, exception_type_ f with
  | Some (reached, expected), None =>
      TAB +:+ TAB +:+ TAB +:+ "[REACHED] " +:+ reached +:+ endl +:+
      match failure_type_ f with
      | equal => TAB +:+ TAB +:+ TAB +:+ "[EXPECTED EQUAL TO] " +:+ expected +:+ endl
      | different => TAB +:+ TAB +:+ TAB +:+ "[EXPECTED DIFFERENT FROM] " +:+ expected +:+ endl
      | exception => TAB +:+ TAB +:+ TAB +:+ "[ERROR] " +:+ endl
      end
  | None, None =>
      match failure_type_ f with
      | equal =>
          TAB +:+ TAB +:+ TAB +:+
          "[REACHED] is different from [EXPECTED]. Expected [EQUAL TO]" +:+ endl
      | different =>
          TAB +:+ TAB +:+ TAB +:+
          "[REACHED] is equal to [EXPECTED]. Expected [DIFFERENT FROM]" +:+ endl
      | exception => TAB +:+ TAB +:+ TAB +:+ "[ERROR] " +:+ endl
      end
  | _, Some exception_name =>
      match failure_type_ f with
      | exception => TAB +:+ TAB +:+ "[EXPECTED Exception] " +:+ type_name exception_name +:+ endl
      | _ => TAB +:+ TAB +:+ TAB +:+ "[ERROR] " +:+ endl
      end
  end.

(** [TestFailure::what()], on its first call *)
Definition TestFailure_what (f : TestFailure) : string :=
  message_ f +:+ endl +:+ additionalInfos f.

(** A thrown object: a [TestFailure], or an object of any other type
    together with what its [what()] returns when the type derives from
    [std::exception]. *)
Inductive Exn :=
| Failure (f : TestFailure)
| Object (ty : ExnType) (what_ : string).

Definition type_of (e : Exn) : ExnType :=
  match e with
  | Failure _ => TestFailure_type
  | Object ty _ => ty
  end.

Definition what (e : Exn) : string :=
  match e with
  | Failure f => TestFailure_what f
  | Object _ s => s
  end.

(** ** Computations that mutate a state and may throw *)

Inductive Res (A : Type) := Val (a : A) | Exc (e : Exn).
Arguments Val {A} a.
Arguments Exc {A} e.

Definition M (S A : Type) : Type := S → S * Res A.

Definition ret {S A} (a : A) : M S A := λ s, (s, Val a).

Definition bind {S A B} (m : M S A) (k : A → M S B) : M S B :=
  λ s, match m s with
       | (s', Val a) => k a s'
       | (s', Exc e) => (s', Exc e)
       end.

Definition throw {S A} (e : Exn) : M S A := λ s, (s, Exc e).

Definition get {S} : M S S := λ s, (s, Val s).
Definition modify {S} (f : S → S) : M S unit := λ s, (f s, Val tt).

Notation "'let!' x := m 'in' k" := (bind m (λ x, k))
  (at level 10, x name, m at level 100, k at level 200).
Notation "m >> k" := (bind m (λ _, k))
  (at level 100, k at level 200, right associativity).

(** A [catch] clause of a handler list. *)
Inductive Handler (S A : Type) :=
| Catch (ty : ExnType) (h : Exn → M S A)
| CatchAll (h : M S A).
Arguments Catch {S A} ty h.
Arguments CatchAll {S A} h.

(** The first clause that handles the exception runs; with no such
    clause the exception leaves the [try] statement. *)
Fixpoint dispatch {S A} (hs : list (Handler S A)) (e : Exn) : M S A :=
  match hs with
  | [] => throw e
  | Catch ty h :: hs' => if handles ty (type_of e) then h e else dispatch hs' e
  | CatchAll h :: _ => h
  end.

Definition try_catch {S A} (body : M S A) (hs : list (Handler S A)) : M S A :=
  λ s, match body s with
       | (s', Val a) => (s', Val a)
       | (s', Exc e) => dispatch hs e s'
       end.

(** ** The assertion engine *)

(** [FailureTest<ValueTypeL, ValueTypeR, ExceptionType>] *)
Definition FailureTest {S} (condition : bool) (shown : option (string * string))
    (exception_type : option ExnType) (failure_type : FailureType)
    (message : string) (lineInfo : LineInfo) : M S unit :=
  if negb condition then
    let oss :=
      if isInit lineInfo
      then message +:+ TAB +:+ "(" +:+ LineInfo_show lineInfo +:+ ")"
      else message in
    throw (Failure {| message_ := oss; shown_ := shown;
                      failure_type_ := failure_type;
                      exception_type_ := exception_type |})
  else ret tt.

(** [AsserterExpression<std::nullptr_t>], the result of every check *)
Inductive EmptyExpression := Empty.

Section Asserter.
Context {S : Type}.

(** [AsserterExpression::fail_exception<ExpectedException>] *)
Definition fail_exception (ExpectedException : ExnType)
    (message : string) (lineInfo : LineInfo) : M S EmptyExpression :=
  FailureTest false (Some ("0", "0")) (Some ExpectedException) exception message lineInfo >>
  ret Empty.

(** [AsserterExpression::expectException<ExpectedException>]; [expr_]
    is the stored procedure.  The first handler returns from the
    function, the second falls through to [fail_exception]. *)
Definition expectException (expr_ : M S unit) (ExpectedException : ExnType)
    (message : string) (lineInfo : LineInfo) : M S EmptyExpression :=
  let! returned := try_catch (expr_ >> ret None)
                     [ Catch ExpectedException (λ _, ret (Some Empty));
                       CatchAll (ret None) ] in
  match returned with
  | Some r => ret r
  | None => fail_exception ExpectedException message lineInfo
  end.

(** The tolerance overloads of [AsserterExpression::isEqualTo], for
    the format with precision [prec] and exponent bound [emax];
    [show] is [operator<<] on that type. *)
Definition isEqualTo_tolerance (prec emax : Z) (show : spec_float → string)
    (expr_ expected tolerance : spec_float)
    (message : string) (lineInfo : LineInfo) : M S EmptyExpression :=
  let diff := SFsub prec emax expected expr_ in
  FailureTest (SFleb (SFabs diff) (SFabs tolerance))
    (Some (show expr_, show expected)) None equal message lineInfo >>
  ret Empty.

(** [isEqualTo(double expected, double tolerance, ...)] *)
Definition isEqualTo_double := isEqualTo_tolerance 53 1024.
(** [isEqualTo(float expected, float tolerance, ...)] *)
Definition isEqualTo_float := isEqualTo_tolerance 24 128.
End Asserter.

(** ** Test cases *)

(** [Duration] is [std::chrono::duration<double, std::milli>].  Its
    default constructor is defaulted, so a member that no constructor
    initialises and nothing has assigned holds no determinate value. *)
Inductive Duration := indeterminate | ms (count : spec_float).

(** [Duration{ 0 }] *)
Definition Duration_zero : Duration := ms (S754_zero false).

(** [operator+=] on durations: the sum of the two [double] counts *)
Definition Duration_add (a b : Duration) : Duration :=
  match a, b with
  | ms x, ms y => ms (SFadd 53 1024 x y)
  | _, _ => indeterminate
  end.

(** [Test::Status] *)
Inductive Status := PASSED | FAILED | ERROR | SKIPPED | NONE.

(** The dynamic type of a test object, which selects [run_private]. *)
Inductive TestClass := class_Test | class_SkippedTest.

(** [std::type_index] *)
Definition type_index := positive.

Section Engine.
(** The state of the program outside the framework, which the test
    procedures and the observers read and write. *)
Context {W : Type}.
(** [high_resolution_clock::now() - start], in milliseconds, for the
    clock read in the first state and read again in the second. *)
Variable elapsed : W → W → spec_float.

(** [std::function<void(void)>] *)
Definition TestFunctor : Type := M W unit.

Record Test := {
  dynamic_type : TestClass;
  exec_time_ms_ : Duration;
  test_holder_ : TestFunctor;
  label_ : string;
  failure_reason_ : string;
  skipped_reason_ : string;
  error_ : string;
  status_ : Status
}.

Definition set_exec_time_ms_ (d : Duration) (t : Test) : Test :=
  {| dynamic_type := dynamic_type t; exec_time_ms_ := d;
     test_holder_ := test_holder_ t; label_ := label_ t;
     failure_reason_ := failure_reason_ t; skipped_reason_ := skipped_reason_ t;
     error_ := error_ t; status_ := status_ t |}.
Definition set_failure_reason_ (s : string) (t : Test) : Test :=
  {| dynamic_type := dynamic_type t; exec_time_ms_ := exec_time_ms_ t;
     test_holder_ := test_holder_ t; label_ := label_ t;
     failure_reason_ := s; skipped_reason_ := skipped_reason_ t;
     error_ := error_ t; status_ := status_ t |}.
Definition set_skipped_reason_ (s : string) (t : Test) : Test :=
  {| dynamic_type := dynamic_type t; exec_time_ms_ := exec_time_ms_ t;
     test_holder_ := test_holder_ t; label_ := label_ t;
     failure_reason_ := failure_reason_ t; skipped_reason_ := s;
     error_ := error_ t; status_ := status_ t |}.
Definition set_error_ (s : string) (t : Test) : Test :=
  {| dynamic_type := dynamic_type t; exec_time_ms_ := exec_time_ms_ t;
     test_holder_ := test_holder_ t; label_ := label_ t;
     failure_reason_ := failure_reason_ t; skipped_reason_ := skipped_reason_ t;
     error_ := s; status_ := status_ t |}.
Definition set_status_ (st : Status) (t : Test) : Test :=
  {| dynamic_type := dynamic_type t; exec_time_ms_ := exec_time_ms_ t;
     test_holder_ := test_holder_ t; label_ := label_ t;
     failure_reason_ := failure_reason_ t; skipped_reason_ := skipped_reason_ t;
     error_ := error_ t; status_ := st |}.

(** [Test(const std::string& label, const TestFunctor&& test)]: the
    initialiser list names [test_holder_], [label_] and [status_];
    the strings are default-constructed and [exec_time_ms_] is left
    as it is. *)
Definition Test_ctor (label : string) (test : TestFunctor) : Test :=
  {| dynamic_type := class_Test; exec_time_ms_ := indeterminate;
     test_holder_ := test; label_ := label;
     failure_reason_ := EmptyString; skipped_reason_ := EmptyString; error_ := EmptyString;
     status_ := NONE |}.

(** [SkippedTest(const std::string& label, TestFunctor&& func)] *)
Definition SkippedTest_ctor (label : string) (func : TestFunctor) : Test :=
  {| dynamic_type := class_SkippedTest; exec_time_ms_ := indeterminate;
     test_holder_ := func; label_ := label;
     failure_reason_ := EmptyString; skipped_reason_ := EmptyString; error_ := EmptyString;
     status_ := NONE |}.

(** [SkippedTest(const std::string& reason, const std::string& label,
    TestFunctor&& func)] *)
Definition SkippedTest_ctor_reason (reason label : string) (func : TestFunctor) : Test :=
  set_skipped_reason_ reason (SkippedTest_ctor label func).

Definition make_test (label : string) (func : TestFunctor) : Test :=
  Test_ctor label func.
Definition make_skipped_test (reason label : string) (func : TestFunctor) : Test :=
  SkippedTest_ctor_reason reason label func.

Definition getExecTimeMs (t : Test) : Duration := exec_time_ms_ t.
Definition getStatus (t : Test) : Status := status_ t.
Definition getFailureReason (t : Test) : string := failure_reason_ t.
Definition getSkippedReason (t : Test) : string := skipped_reason_ t.
Definition getError (t : Test) : string := error_ t.

(** The member functions of a test run on the pair of the outside
    state and the object [*this]. *)
Definition on_this (f : Test → Test) : M (W * Test) unit :=
  modify (λ s, (s.1, f s.2)).

(** The call of the stored procedure through [test_holder_] *)
Definition call_test_holder : M (W * Test) unit :=
  λ s, let '(w', r) := test_holder_ s.2 s.1 in ((w', s.2), r).

(** [Test::run_private] *)
Definition Test_run_private : M (W * Test) unit :=
  let! start := get in
  try_catch
    (call_test_holder >> on_this (set_status_ PASSED))
    [ Catch GenericTestFailure (λ failure,
        on_this (set_status_ FAILED) >>
        on_this (set_failure_reason_ (what failure)));
      Catch std_exception (λ e,
        on_this (set_status_ ERROR) >>
        on_this (set_error_ (what e)));
      CatchAll (
        on_this (set_status_ ERROR) >>
        on_this (set_error_ "Unkown error")) ] >>
  let! stop := get in
  on_this (set_exec_time_ms_ (ms (elapsed start.1 stop.1))).

(** [SkippedTest::run_private] *)
Definition SkippedTest_run_private : M (W * Test) unit :=
  on_this (set_status_ SKIPPED).

(** [Test::run], which calls the virtual [run_private] *)
Definition run : M (W * Test) unit :=
  λ s, match dynamic_type s.2 with
       | class_Test => Test_run_private s
       | class_SkippedTest => SkippedTest_run_private s
       end.

(** ** Observers *)

(** [struct TestInfo { const Test& test; }]: the reference is the
    position of the object in the scenario's list, with the object as
    it is when the reference is read. *)
Record TestInfo := { test_ref : nat; test : Test }.

(** A [std::shared_ptr<IRegistryObserver>]: the address it holds, and
    the [update] of the object it points to. *)
Record IRegistryObserver := {
  addr : N;
  update : TestInfo → M W unit
}.

(** [std::set<std::shared_ptr<IRegistryObserver>>]: the handles in
    ascending order of address, each address once. *)
Fixpoint set_insert (o : IRegistryObserver) (l : list IRegistryObserver)
    : list IRegistryObserver :=
  match l with
  | [] => [o]
  | x :: l' =>
      if (addr o <? addr x)%N then o :: l
      else if (addr o =? addr x)%N then l
      else x :: set_insert o l'
  end.

Definition set_erase (o : IRegistryObserver) (l : list IRegistryObserver)
    : list IRegistryObserver :=
  List.filter (λ x, negb (addr x =? addr o)%N) l.

(** ** The manager of one scenario *)

Record RegistryManager := {
  list_observers_ : list IRegistryObserver;
  run_ : bool;
  exec_time_ms_accumulator_ : Duration;
  tests_passed_ : list nat;
  tests_failed_ : list nat;
  tests_skipped_ : list nat;
  tests_with_error_ : list nat
}.

(** The state [RegistryManager(feeder)] leaves the object in. *)
Definition RegistryManager_ctor : RegistryManager :=
  {| list_observers_ := []; run_ := false;
     exec_time_ms_accumulator_ := Duration_zero;
     tests_passed_ := []; tests_failed_ := [];
     tests_skipped_ := []; tests_with_error_ := [] |}.

Definition set_list_observers_ (l : list IRegistryObserver) (m : RegistryManager) :=
  {| list_observers_ := l; run_ := run_ m;
     exec_time_ms_accumulator_ := exec_time_ms_accumulator_ m;
     tests_passed_ := tests_passed_ m; tests_failed_ := tests_failed_ m;
     tests_skipped_ := tests_skipped_ m; tests_with_error_ := tests_with_error_ m |}.
Definition set_run_ (b : bool) (m : RegistryManager) :=
  {| list_observers_ := list_observers_ m; run_ := b;
     exec_time_ms_accumulator_ := exec_time_ms_accumulator_ m;
     tests_passed_ := tests_passed_ m; tests_failed_ := tests_failed_ m;
     tests_skipped_ := tests_skipped_ m; tests_with_error_ := tests_with_error_ m |}.
Definition set_exec_time_ms_accumulator_ (d : Duration) (m : RegistryManager) :=
  {| list_observers_ := list_observers_ m; run_ := run_ m;
     exec_time_ms_accumulator_ := d;
     tests_passed_ := tests_passed_ m; tests_failed_ := tests_failed_ m;
     tests_skipped_ := tests_skipped_ m; tests_with_error_ := tests_with_error_ m |}.

(** The handles stand in strictly ascending order of address. *)
Fixpoint set_ok (l : list IRegistryObserver) : bool :=
  match l with
  | [] => true
  | x :: l' =>
      match l' with
      | [] => true
      | y :: _ => (addr x <? addr y)%N && set_ok l'
      end
  end.

(** [addObserver] and [removeObserver] of [IRegistryObservable] *)
Definition addObserver (observer : IRegistryObserver) (m : RegistryManager) :=
  set_list_observers_ (set_insert observer (list_observers_ m)) m.
Definition removeObserver (observer : IRegistryObserver) (m : RegistryManager) :=
  set_list_observers_ (set_erase observer (list_observers_ m)) m.

(** The [switch] of [run_tests]: the reference goes to the back of
    the vector of the test's status, and nowhere for [NONE]. *)
Definition file (i : nat) (st : Status) (m : RegistryManager) : RegistryManager :=
  match st with
  | PASSED =>
      {| list_observers_ := list_observers_ m; run_ := run_ m;
         exec_time_ms_accumulator_ := exec_time_ms_accumulator_ m;
         tests_passed_ := tests_passed_ m ++ [i]; tests_failed_ := tests_failed_ m;
         tests_skipped_ := tests_skipped_ m; tests_with_error_ := tests_with_error_ m |}
  | FAILED =>
      {| list_observers_ := list_observers_ m; run_ := run_ m;
         exec_time_ms_accumulator_ := exec_time_ms_accumulator_ m;
         tests_passed_ := tests_passed_ m; tests_failed_ := tests_failed_ m ++ [i];
         tests_skipped_ := tests_skipped_ m; tests_with_error_ := tests_with_error_ m |}
  | SKIPPED =>
      {| list_observers_ := list_observers_ m; run_ := run_ m;
         exec_time_ms_accumulator_ := exec_time_ms_accumulator_ m;
         tests_passed_ := tests_passed_ m; tests_failed_ := tests_failed_ m;
         tests_skipped_ := tests_skipped_ m ++ [i]; tests_with_error_ := tests_with_error_ m |}
  | ERROR =>
      {| list_observers_ := list_observers_ m; run_ := run_ m;
         exec_time_ms_accumulator_ := exec_time_ms_accumulator_ m;
         tests_passed_ := tests_passed_ m; tests_failed_ := tests_failed_ m;
         tests_skipped_ := tests_skipped_ m; tests_with_error_ := tests_with_error_ m ++ [i] |}
  | NONE => m
  end.

(** ** The registry and the machine *)

(** A [TestList], that is a [std::vector<std::unique_ptr<Test>>], is
    a [list Test]; the registry, a [std::map<std::type_index,
    TestList>], is a [gmap type_index (list Test)]. *)

(** One call [observer->update(infos)], recorded when it is made:
    the handle called, the view passed, and the manager as a query
    made from inside the call finds it. *)
Record Event := {
  ev_observer : N;
  ev_infos : TestInfo;
  ev_manager : RegistryManager
}.

(** The outside state, the global registry of [get_registry()], the
    manager object of the scenario, and the record of the calls made
    to observers. *)
Record Machine := {
  world : W;
  registry : gmap type_index (list Test);
  this : RegistryManager;
  calls : list Event
}.

Definition set_world (w : W) (σ : Machine) : Machine :=
  {| world := w; registry := registry σ; this := this σ; calls := calls σ |}.
Definition set_registry (r : gmap type_index (list Test)) (σ : Machine) : Machine :=
  {| world := world σ; registry := r; this := this σ; calls := calls σ |}.
Definition set_this (m : RegistryManager) (σ : Machine) : Machine :=
  {| world := world σ; registry := registry σ; this := m; calls := calls σ |}.
Definition set_calls (l : list Event) (σ : Machine) : Machine :=
  {| world := world σ; registry := registry σ; this := this σ; calls := l |}.

Definition on_manager (f : RegistryManager → RegistryManager) : M Machine unit :=
  modify (λ σ, set_this (f (this σ)) σ).

(** A call of user code, which sees the outside state only. *)
Definition lift_world {A} (m : M W A) : M Machine A :=
  λ σ, let '(w', r) := m (world σ) in (set_world w' σ, r).

(** The key of the scenario, [type_helper<ScenarioName>::type_index()]. *)
Variable ScenarioName : type_index.

(** [get_registry()[key]]: [operator[]] makes the entry, with an
    empty list, when the map has none. *)
Definition registry_entry : M Machine (list Test) :=
  λ σ, let tests := registry σ !!! ScenarioName in
       (set_registry (<[ScenarioName := tests]> (registry σ)) σ, Val tests).

(** The registration functions append to the entry. *)
Definition push_back (t : Test) (reg : gmap type_index (list Test))
    : gmap type_index (list Test) :=
  <[ScenarioName := (reg !!! ScenarioName) ++ [t]]> reg.
Definition add_test (label : string) (func : TestFunctor) :=
  push_back (make_test label func).
Definition skip_test (reason label : string) (func : TestFunctor) :=
  push_back (make_skipped_test reason label func).

(** [IRegistryObservable::notify] *)
Fixpoint notify_each (observers : list IRegistryObserver) (infos : TestInfo)
    : M Machine unit :=
  match observers with
  | [] => ret tt
  | observer :: rest =>
      modify (λ σ, set_calls (calls σ ++
                [{| ev_observer := addr observer; ev_infos := infos;
                    ev_manager := this σ |}]) σ) >>
      lift_world (update observer infos) >>
      notify_each rest infos
  end.

Definition notify (infos : TestInfo) : M Machine unit :=
  let! σ := get in
  notify_each (list_observers_ (this σ)) infos.

(** [test->run()] on the element at position [i]: the object in the
    registry is the one that changes. *)
Definition run_element (i : nat) (t : Test) : M Machine Test :=
  λ σ, let '((w', t'), r) := run (world σ, t) in
       (set_world w'
          (set_registry
             (<[ScenarioName := <[i := t']> (registry σ !!! ScenarioName)]> (registry σ)) σ),
        match r with Val _ => Val t' | Exc e => Exc e end).

(** [exec_time_ms_accumulator_ += d] *)
Definition accumulate (d : Duration) (m : RegistryManager) : RegistryManager :=
  set_exec_time_ms_accumulator_ (Duration_add (exec_time_ms_accumulator_ m) d) m.

(** The body of the loop of [run_tests] *)
Definition run_case (i : nat) (t : Test) : M Machine unit :=
  let! t' := run_element i t in
  on_manager (accumulate (getExecTimeMs t')) >>
  notify {| test_ref := i; test := t' |} >>
  on_manager (file i (getStatus t')).

(** [for (auto& test : tests)], from position [i] on *)
Fixpoint run_cases (i : nat) (tests : list Test) : M Machine unit :=
  match tests with
  | [] => ret tt
  | t :: rest => run_case i t >> run_cases (S i) rest
  end.

(** [RegistryManager::run_tests] *)
Definition run_tests : M Machine unit :=
  let! tests := registry_entry in
  run_cases 0 tests >>
  on_manager (set_run_ true).

(** The accessors *)
Definition getPassedCount (m : RegistryManager) : nat :=
  if run_ m then length (tests_passed_ m) else 0.
Definition getPassedTests (m : RegistryManager) : list nat := tests_passed_ m.
Definition getFailedCount (m : RegistryManager) : nat :=
  if run_ m then length (tests_failed_ m) else 0.
Definition getFailedTests (m : RegistryManager) : list nat := tests_failed_ m.
Definition getSkippedCount (m : RegistryManager) : nat :=
  if run_ m then length (tests_skipped_ m) else 0.
Definition getSkippedTests (m : RegistryManager) : list nat := tests_skipped_ m.
Definition getWithErrorCount (m : RegistryManager) : nat :=
  if run_ m then length (tests_with_error_ m) else 0.
Definition getWithErrorTests (m : RegistryManager) : list nat := tests_with_error_ m.
Definition getAllTestsCount (m : RegistryManager) (reg : gmap type_index (list Test)) : nat :=
  if run_ m then length (reg !!! ScenarioName) else 0.
Definition getAllTests (reg : gmap type_index (list Test)) : list Test :=
  reg !!! ScenarioName.
Definition getAllTestsExecTimeMs (m : RegistryManager) : Duration :=
  if run_ m then exec_time_ms_accumulator_ m else Duration_zero.

(** The managers of a scenario that has not been run: the constructed
    object, with observers attached and detached at will. *)
Inductive Pending : RegistryManager → Prop :=
| Pending_ctor : Pending RegistryManager_ctor
| Pending_addObserver o m : Pending m → Pending (addObserver o m)
| Pending_removeObserver o m : Pending m → Pending (removeObserver o m).


(** The calls recorded for one handle, as the positions of the tests
    they were made for. *)
Definition received (a : N) (evs : list Event) : list nat :=
  map (λ ev, test_ref (ev_infos ev)) (List.filter (λ ev, (ev_observer ev =? a)%N) evs).

(** The outcome kept in the object at position [i] of a list. *)
Definition status_at (tests : list Test) (i : nat) : Status :=
  match tests !! i with
  | Some t => getStatus t
  | None => NONE
  end.

(** The vector that [run_tests] files a status in. *)
Definition bucket (st : Status) (m : RegistryManager) : list nat :=
  match st with
  | PASSED => tests_passed_ m
  | FAILED => tests_failed_ m
  | ERROR => tests_with_error_ m
  | SKIPPED => tests_skipped_ m
  | NONE => []
  end.

Definition Status_eqb (a b : Status) : bool :=
  match a, b with
  | PASSED, PASSED | FAILED, FAILED | ERROR, ERROR
  | SKIPPED, SKIPPED | NONE, NONE => true
  | _, _ => false
  end.
End Engine.

(** ** More of the assertion engine *)


(** What [operator<<] prints for a [bool] (no [boolalpha]). *)
Definition show_bool (b : bool) : string := if b then "1" else "0".

(** [::tolower] in the default "C" locale, on one [char]. *)
Definition tolower (c : Ascii.ascii) : Ascii.ascii :=
  let n := Ascii.nat_of_ascii c in
  if Nat.leb 65 n && Nat.leb n 90 then Ascii.ascii_of_nat (n + 32) else c.

(** [std::transform(s.begin(), s.end(), s.begin(), ::tolower)] *)
Fixpoint transform_tolower (s : string) : string :=
  match s with
  | EmptyString => EmptyString
  | String c s' => String (tolower c) (transform_tolower s')
  end.

Section AsserterMore.
Context {S : Type}.

(** [AsserterExpression<bool>::isTrue] *)
Definition isTrue (expr_ : bool) (message : string) (lineInfo : LineInfo)
    : M S EmptyExpression :=
  FailureTest expr_ (Some (show_bool expr_, show_bool true)) None equal message lineInfo >>
  ret Empty.

(** [AsserterExpression<bool>::isFalse] *)
Definition isFalse (expr_ : bool) (message : string) (lineInfo : LineInfo)
    : M S EmptyExpression :=
  FailureTest (negb expr_) (Some (show_bool (negb expr_), show_bool false)) None equal
    message lineInfo >>
  ret Empty.


(** [isEqualTo(const char* expected, bool ignoreCase, ...)], on an
    expression that is a C string: the comparison is made on copies,
    the failure holds the two pointers. *)
Definition isEqualTo_cstr (expr_ expected : string) (ignoreCase : bool)
    (message : string) (lineInfo : LineInfo) : M S EmptyExpression :=
  let expected_str := if ignoreCase then transform_tolower expected else expected in
  let expr_str := if ignoreCase then transform_tolower expr_ else expr_ in
  FailureTest (String.eqb expected_str expr_str) (Some (expr_, expected)) None equal
    message lineInfo >>
  ret Empty.
End AsserterMore.

(** [isEqualTo(std::string expected, bool ignoreCase, ...)], on an
    expression that is a [std::string]: the state is the member
    [expr_], which the function lowers in place, as it does its own
    copy of [expected]. *)
Definition isEqualTo_string (expected : string) (ignoreCase : bool)
    (message : string) (lineInfo : LineInfo) : M string EmptyExpression :=
  let expected := if ignoreCase then transform_tolower expected else expected in
  (if ignoreCase then modify transform_tolower else ret tt) >>
  let! expr_ := get in
  FailureTest (String.eqb expected expr_) (Some (expr_, expected)) None equal
    message lineInfo >>
  ret Empty.

(** [operator<<(std::ostream&, Test::Status)] and [to_string] *)
Definition Status_show (status : Status) : string :=
  match status with
  | PASSED => "PASSED"
  | FAILED => "FAILED"
  | ERROR => "ERROR"
  | SKIPPED => "SKIPPED"
  | NONE => "NOT RUN YET"
  end.

Definition to_string (status : Status) : string := Status_show status.

(** ** Strings of the report *)

(** [std::string::npos], for a [size_t] of 64 bits. *)
Definition npos : N := 2 ^ 64 - 1.

(** Addition on [size_t]. *)
Definition size_t_add (a b : N) : N := ((a + b) mod 2 ^ 64)%N.

(** [std::string::find(char)]: the position of the first occurrence,
    or [npos]. *)
Fixpoint find_from (s : string) (c : Ascii.ascii) (pos : N) : N :=
  match s with
  | EmptyString => npos
  | String x s' => if Ascii.eqb x c then pos else find_from s' c (pos + 1)
  end.

Definition find (s : string) (c : Ascii.ascii) : N := find_from s c 0.

Fixpoint string_drop (n : nat) (s : string) : string :=
  match n, s with
  | 0, _ => s
  | Datatypes.S n', String _ s' => string_drop n' s'
  | Datatypes.S _, EmptyString => EmptyString
  end.

Definition std_out_of_range : ExnType := Derived "std::out_of_range" std_logic_error.

(** [std::string::substr(pos)]: the text from [pos] on, and
    [std::out_of_range] when [pos] is beyond the size. *)
Definition substr {S} (s : string) (pos : N) : M S string :=
  if (N.of_nat (String.length s) <? pos)%N
  then throw (Object std_out_of_range "basic_string::substr")
  else ret (string_drop (N.to_nat pos) s).

(** [test_name.substr(test_name.find(' ') + 1)], the name that
    [print] shows for the scenario. *)
Definition display_name {S} (test_name : string) : M S string :=
  substr test_name (size_t_add (find test_name (Ascii.ascii_of_nat 32)) 1).

(** ** The console report *)

(** The colours of [H2OFastTests_config.hpp]. *)
Inductive Color := COLOR_CYAN | COLOR_GREEN | COLOR_RED | COLOR_YELLOW | COLOR_PURPLE.

(** An argument passed for a conversion of the format. *)
Inductive PrintfArg :=
| arg_text (s : string)
| arg_size (n : nat)
| arg_duration (d : Duration).

(** One call [ColoredPrintf(color, format, args...)]; the function is
    declared in [H2OFastTests_config.hpp], and what [print] does is the
    sequence of the calls it makes. *)
Record ColoredPrintf := {
  pf_color : Color;
  pf_format : string;
  pf_args : list PrintfArg
}.

Section Reporting.
Context {W : Type}.
Variable ScenarioName : type_index.

(** The lambda that [register_scenario] passes as [feeder]:
    [get_registry().emplace(key, TestList{}).second]. *)
Definition register_scenario_feeder (reg : gmap type_index (list (Test (W := W))))
    : gmap type_index (list Test) * bool :=
  match reg !! ScenarioName with
  | Some _ => (reg, false)
  | None => (<[ScenarioName := []]> reg, true)
  end.

(** The objects that the references of a vector designate. *)
Definition referred (reg : gmap type_index (list (Test (W := W)))) (refs : list nat)
    : list Test :=
  omap (λ i, (reg !!! ScenarioName) !! i) refs.

Definition passed_line (t : Test (W := W)) : ColoredPrintf :=
  {| pf_color := COLOR_GREEN;
     pf_format := TAB +:+ TAB +:+ "[%s] [%f ms]" +:+ endl;
     pf_args := [arg_text (label_ t); arg_duration (getExecTimeMs t)] |}.

Definition message_line (c : Color) (t : Test (W := W)) (message : string) : ColoredPrintf :=
  {| pf_color := c;
     pf_format := TAB +:+ TAB +:+ "[%s] [%f ms]" +:+ endl +:+
                  TAB +:+ TAB +:+ "Message: %s" +:+ endl;
     pf_args := [arg_text (label_ t); arg_duration (getExecTimeMs t); arg_text message] |}.

Definition count_line (c : Color) (title : string) (count total : nat) : ColoredPrintf :=
  {| pf_color := c;
     pf_format := TAB +:+ title +:+ ": %d/%d" +:+ endl;
     pf_args := [arg_size count; arg_size total] |}.

(** [RegistryTraversal_ConsoleIO::print]; the state is the sequence of
    the calls made so far. *)
Definition print (test_name : string) (m : RegistryManager (W := W))
    (reg : gmap type_index (list Test)) (verbose : bool)
    : M (list ColoredPrintf) unit :=
  let out (l : list ColoredPrintf) : M (list ColoredPrintf) unit :=
    modify (λ calls, calls ++ l) in
  let total := getAllTestsCount ScenarioName m reg in
  let! name := display_name test_name in
  out [ {| pf_color := COLOR_CYAN;
           pf_format := "UNIT TEST SUMMARY [%s] [%f ms] : " +:+ endl;
           pf_args := [arg_text name; arg_duration (getAllTestsExecTimeMs m)] |} ] >>
  (if Nat.ltb 0 (getPassedCount m)
   then out [count_line COLOR_GREEN "PASSED" (getPassedCount m) total] >>
        (if verbose
         then out (passed_line <$> referred reg (getPassedTests m))
         else ret tt)
   else ret tt) >>
  (if Nat.ltb 0 (getFailedCount m)
   then out [count_line COLOR_RED "FAILED" (getFailedCount m) total] >>
        out ((λ t, message_line COLOR_RED t (getFailureReason t))
               <$> referred reg (getFailedTests m))
   else ret tt) >>
  (if Nat.ltb 0 (getSkippedCount m)
   then out [count_line COLOR_YELLOW "SKIPPED" (getSkippedCount m) total] >>
        (if verbose
         then out ((λ t, message_line COLOR_YELLOW t (getSkippedReason t))
                     <$> referred reg (getSkippedTests m))
         else ret tt)
   else ret tt) >>
  (if Nat.ltb 0 (getWithErrorCount m)
   then out [count_line COLOR_PURPLE "ERRORS" (getWithErrorCount m) total] >>
        out ((λ t, message_line COLOR_PURPLE t (getError t))
               <$> referred reg (getWithErrorTests m))
   else ret tt).
End Reporting.

(** ** A small scenario to run

    The outside state is a counter; every clock difference is one
    millisecond. *)
Module Sample.
(** 1.0, 1.25, 0.5 and -0.5 as binary64 values *)
Definition d_1 : spec_float := S754_finite false 4503599627370496 (-52).
Definition d_1_25 : spec_float := S754_finite false 5629499534213120 (-52).
Definition d_0_5 : spec_float := S754_finite false 4503599627370496 (-53).
Definition d_minus_0_5 : spec_float := S754_finite true 4503599627370496 (-53).

Definition show (x : spec_float) : string := EmptyString.

Definition elapsed (start stop : nat) : spec_float := d_1.
Definition Math : type_index := 1%positive.

(** Procedures: count a call, then return, fail an assertion, throw a
    [std::domain_error], or throw an [int]. *)
Definition counts : M nat unit := modify S.
Definition fails : M nat unit :=
  counts >> FailureTest false (Some ("0", "0")) None equal "no" LineInfo_default.
Definition throws_domain_error : M nat unit :=
  counts >> throw (Object std_domain_error "out of domain").
Definition throws_int : M nat unit :=
  counts >> throw (Object int_type EmptyString).

Definition t_adds : Test := make_test "adds" counts.
Definition t_fails : Test := make_test "fails" fails.
Definition t_throws : Test := make_test "throws" throws_domain_error.
Definition t_skipped : Test := make_skipped_test "later" "skipped" counts.

Definition quiet (a : N) : IRegistryObserver (W := nat) :=
  {| addr := a; update := λ _, ret tt |}.

Definition registered : gmap type_index (list (Test (W := nat))) :=
  skip_test Math "later" "skipped" counts
    (add_test Math "throws" throws_domain_error
       (add_test Math "fails" fails
          (add_test Math "adds" counts ∅))).

Definition machine (m : RegistryManager) : Machine :=
  {| world := 0; registry := registered; this := m; calls := [] |}.

Definition manager : RegistryManager (W := nat) :=
  addObserver (quiet 7) (addObserver (quiet 3) RegistryManager_ctor).

Definition run_scenario (σ : Machine) : Machine := (run_tests elapsed Math σ).1.
End Sample.

(** An observer that throws when it is told of the second case, a
    second scenario, and the name of a type as [typeid] gives it. *)
Module MoreSample.
Import Sample.

Definition thrower (a : N) : IRegistryObserver (W := nat) :=
  {| addr := a;
     update := λ infos,
       if Nat.eqb (test_ref infos) 1
       then throw (Object std_runtime_error "observer")
       else ret tt |}.

Definition interrupted : RegistryManager (W := nat) :=
  addObserver (thrower 5) RegistryManager_ctor.

Definition Other : type_index := 2%positive.

Definition type_name_Math : string := "struct Math".
End MoreSample.

(** A scenario watched by an observer that keeps a record: the
    outside state is the list of what the observer was shown, the
    position and the status of each case. *)
Module Recording.
Definition elapsed (start stop : list (nat * Status)) : spec_float := Sample.d_1.
Definition Math : type_index := 1%positive.

Definition view (infos : TestInfo (W := list (nat * Status))) : nat * Status :=
  (test_ref infos, getStatus (test infos)).

Definition recorder (a : N) : IRegistryObserver (W := list (nat * Status)) :=
  {| addr := a; update := λ infos, modify (λ w, w ++ [view infos]) |}.

Definition silent (a : N) : IRegistryObserver (W := list (nat * Status)) :=
  {| addr := a; update := λ _, ret tt |}.

Definition thrower (a : N) : IRegistryObserver (W := list (nat * Status)) :=
  {| addr := a;
     update := λ infos,
       if Nat.eqb (test_ref infos) 1
       then throw (Object std_runtime_error "observer")
       else ret tt |}.

Definition registered : gmap type_index (list (Test (W := list (nat * Status)))) :=
  skip_test Math "later" "skipped" (ret tt)
    (add_test Math "throws" (throw (Object std_domain_error "out of domain"))
       (add_test Math "fails"
          (FailureTest false (Some ("0", "0")) None equal "no" LineInfo_default)
          (add_test Math "adds" (ret tt) ∅))).

Definition machine (m : RegistryManager) : Machine :=
  {| world := []; registry := registered; this := m; calls := [] |}.

(** A silent observer and a recorder; a thrower and a recorder. *)
Definition watched : RegistryManager (W := list (nat * Status)) :=
  addObserver (recorder 7) (addObserver (silent 3) RegistryManager_ctor).
Definition disturbed : RegistryManager (W := list (nat * Status)) :=
  addObserver (recorder 7) (addObserver (thrower 5) RegistryManager_ctor).
End Recording.

(** * Properties *)

(** ** Handlers *)

Lemma ExnType_eqb_refl (t : ExnType) : ExnType_eqb t t = true.
Proof.
  induction t as [n | n b IH]; simpl.
  - apply String.eqb_refl.
  - rewrite String.eqb_refl. exact IH.
Qed.

Lemma ExnType_eqb_eq (a b : ExnType) : ExnType_eqb a b = true ↔ a = b.
Proof.
  split.
  - revert b. induction a as [n | n a' IH]; intros [m | m b']; simpl; try discriminate.
    + intros H. apply String.eqb_eq in H. by subst.
    + intros H. apply andb_true_iff in H as [Hn Hb].
      apply String.eqb_eq in Hn. apply IH in Hb. by subst.
  - intros ->. apply ExnType_eqb_refl.
Qed.

Lemma handles_refl (t : ExnType) : handles t t = true.
Proof. destruct t; simpl; rewrite String.eqb_refl, ?ExnType_eqb_refl; done. Qed.

Lemma handles_base (h : ExnType) (n : string) (b : ExnType) :
  handles h b = true → handles h (Derived n b) = true.
Proof. intros H. simpl. rewrite H. apply orb_true_r. Qed.

(** ** The assertion engine *)

Section AsserterProperties.
Context {S : Type}.

Lemma FailureTest_true shown ety ft message lineInfo (s : S) :
  FailureTest true shown ety ft message lineInfo s = (s, Val tt).
Proof. reflexivity. Qed.

Lemma FailureTest_false shown ety ft message lineInfo (s : S) :
  ∃ f, FailureTest false shown ety ft message lineInfo s = (s, Exc (Failure f))
       ∧ failure_type_ f = ft ∧ exception_type_ f = ety ∧ shown_ f = shown.
Proof. unfold FailureTest; simpl. eexists. split; [reflexivity | done]. Qed.

Lemma fail_exception_throws E message lineInfo (s : S) :
  ∃ f, fail_exception E message lineInfo s = (s, Exc (Failure f))
       ∧ failure_type_ f = exception ∧ exception_type_ f = Some E.
Proof.
  unfold fail_exception, bind.
  destruct (FailureTest_false (Some ("0", "0")) (Some E) exception message lineInfo s)
    as (f & -> & Hft & Hety & _).
  by exists f.
Qed.

(** What [expectException] does, by the way the procedure ends. *)
Lemma expectException_cases (expr_ : M S unit) E message lineInfo (s : S) :
  expectException expr_ E message lineInfo s =
    match expr_ s with
    | (s', Val _) => fail_exception E message lineInfo s'
    | (s', Exc e) =>
        if handles E (type_of e) then (s', Val Empty)
        else fail_exception E message lineInfo s'
    end.
Proof.
  unfold expectException, bind at 1, try_catch, bind at 1.
  destruct (expr_ s) as [s' [[] | e]]; simpl; [reflexivity |].
  destruct (handles E (type_of e)); reflexivity.
Qed.

(** C7, amended: [expectException<E>] succeeds exactly when the
    stored procedure throws an object that a handler for [E] takes,
    that is an object of type [E] or of a class derived from [E];
    when the procedure throws anything else, or returns, the
    assertion throws a [TestFailure] whose classification is
    [FailureType::exception] and whose expected type is [E]. *)
Theorem expectException_succeeds_iff_handled
    (expr_ : M S unit) (E : ExnType) (message : string) (lineInfo : LineInfo) (s : S) :
  let result := expectException expr_ E message lineInfo s in
  (result.2 = Val Empty ↔
     ∃ e, (expr_ s).2 = Exc e ∧ handles E (type_of e) = true)
  ∧ (result.2 = Val Empty ∨
     ∃ f, result.2 = Exc (Failure f)
          ∧ failure_type_ f = exception ∧ exception_type_ f = Some E)
  ∧ result.1 = (expr_ s).1.
Proof.
  intros result. subst result. rewrite expectException_cases.
  destruct (expr_ s) as [s' [[] | e]]; cbn [fst snd].
  - destruct (fail_exception_throws E message lineInfo s') as (f & -> & Hft & Hety).
    cbn [fst snd]. split; [| split; [right; by exists f | done]].
    split; [discriminate | intros (e & He & _); discriminate].
  - destruct (handles E (type_of e)) eqn:Hh.
    + cbn [fst snd]. split; [| split; [by left | done]].
      split; [intros _; by exists e | done].
    + destruct (fail_exception_throws E message lineInfo s') as (f & -> & Hft & Hety).
      cbn [fst snd]. split; [| split; [right; by exists f | done]].
      split; [discriminate | intros (e' & He' & Hh')].
      injection He' as <-. congruence.
Qed.

(** The absolute value of a tolerance that is not below zero compares
    as the tolerance itself. *)
Lemma SFleb_SFabs_nonnegative (d tolerance : spec_float) :
  SFleb (S754_zero false) tolerance = true →
  SFleb d (SFabs tolerance) = SFleb d tolerance.
Proof.
  destruct tolerance as [[] | [] | | [] m e]; simpl; try discriminate; try reflexivity.
  all: destruct d as [[] | [] | | [] m' e']; reflexivity.
Qed.

(** C6, amended: for every tolerance, negative or not, the tolerance
    overloads of [isEqualTo] compare: the assertion succeeds when
    |expected - actual| <= |tolerance| and otherwise throws a
    [TestFailure] classified [FailureType::equal]; no call is
    rejected.  For a tolerance that is not negative the bound is the
    tolerance itself. *)
Theorem isEqualTo_tolerance_compares_with_abs
    (prec emax : Z) (show : spec_float → string)
    (expr_ expected tolerance : spec_float)
    (message : string) (lineInfo : LineInfo) (s : S) :
  let result := isEqualTo_tolerance prec emax show expr_ expected tolerance message lineInfo s in
  let distance := SFabs (SFsub prec emax expected expr_) in
  result.1 = s
  ∧ (result.2 = Val Empty ↔ SFleb distance (SFabs tolerance) = true)
  ∧ (result.2 = Val Empty ∨
     ∃ f, result.2 = Exc (Failure f) ∧ failure_type_ f = equal)
  ∧ (SFleb (S754_zero false) tolerance = true →
     (result.2 = Val Empty ↔ SFleb distance tolerance = true)).
Proof.
  intros result distance.
  assert (Hcases : result.1 = s
                   ∧ (result.2 = Val Empty ↔ SFleb distance (SFabs tolerance) = true)
                   ∧ (result.2 = Val Empty ∨
                      ∃ f, result.2 = Exc (Failure f) ∧ failure_type_ f = equal)).
  { subst result. unfold isEqualTo_tolerance, bind. fold distance.
    destruct (SFleb distance (SFabs tolerance)) eqn:Hle.
    - rewrite FailureTest_true. cbn [fst snd]. split; [done | split; [done | by left]].
    - destruct (FailureTest_false (Some (show expr_, show expected)) None equal
                  message lineInfo s) as (f & -> & Hft & _).
      cbn [fst snd]. split; [done | split; [split; discriminate | right; by exists f]]. }
  destruct Hcases as (H1 & H2 & H3).
  split; [done | split; [done | split; [done |]]].
  intros Hnn. by rewrite <- (SFleb_SFabs_nonnegative distance tolerance Hnn).
Qed.
End AsserterProperties.

(** ** Running one test case *)

Section TestProperties.
Context {W : Type}.
Variable elapsed : W → W → spec_float.

(** What [Test::run_private] does, by the way the procedure ends. *)
Lemma Test_run_private_eq (w : W) (t : Test) :
  Test_run_private elapsed (w, t) =
    let '(w', r) := test_holder_ t w in
    ((w', set_exec_time_ms_ (ms (elapsed w w'))
            match r with
            | Val _ => set_status_ PASSED t
            | Exc e =>
                if handles GenericTestFailure (type_of e)
                then set_failure_reason_ (what e) (set_status_ FAILED t)
                else if handles std_exception (type_of e)
                then set_error_ (what e) (set_status_ ERROR t)
                else set_error_ "Unkown error" (set_status_ ERROR t)
            end), Val tt).
Proof.
  unfold Test_run_private, bind at 1, get, bind at 1, try_catch, bind at 1,
    call_test_holder.
  cbn [fst snd]. destruct (test_holder_ t w) as [w' [[] | e]].
  - reflexivity.
  - cbn [dispatch]. destruct (handles GenericTestFailure (type_of e)); [reflexivity |].
    destruct (handles std_exception (type_of e)); reflexivity.
Qed.

Lemma SkippedTest_run_private_eq (w : W) (t : Test) :
  SkippedTest_run_private (w, t) = ((w, set_status_ SKIPPED t), Val tt).
Proof. reflexivity. Qed.

(** [run] always returns to its caller. *)
Lemma run_returns (s : W * Test) : (run elapsed s).2 = Val tt.
Proof.
  destruct s as [w t]. unfold run. cbn [snd]. destruct (dynamic_type t).
  - rewrite Test_run_private_eq. by destruct (test_holder_ t w).
  - reflexivity.
Qed.

(** [run] leaves one of the four outcomes in the object. *)
Lemma run_status (s : W * Test) : getStatus (run elapsed s).1.2 ≠ NONE.
Proof.
  destruct s as [w t]. unfold run. cbn [snd]. destruct (dynamic_type t).
  - rewrite Test_run_private_eq. destruct (test_holder_ t w) as [w' [[] | e]];
      cbn; [done |].
    destruct (handles GenericTestFailure (type_of e)); [done |].
    by destruct (handles std_exception (type_of e)).
  - done.
Qed.


(** C5, as the code has it: [run] on a skipped test returns without
    calling the procedure (the outside state is the one it started
    from, whatever the procedure would do to it) and leaves the
    status [SKIPPED]; the duration is the one the constructor left,
    which is no determinate value and so is not zero. *)
Theorem SkippedTest_run_leaves_duration_unset
    (reason label : string) (func : TestFunctor) (w : W) :
  let after := run elapsed (w, make_skipped_test reason label func) in
  after.2 = Val tt
  ∧ after.1.1 = w
  ∧ getStatus after.1.2 = SKIPPED
  ∧ getExecTimeMs after.1.2 = indeterminate
  ∧ getExecTimeMs after.1.2 ≠ Duration_zero.
Proof. cbn. done. Qed.

(** Whatever its fields hold, a [SkippedTest] is not run and its
    duration is not assigned. *)
Lemma SkippedTest_run_unchanged (t : Test) (w : W) :
  dynamic_type t = class_SkippedTest →
  run elapsed (w, t) = ((w, set_status_ SKIPPED t), Val tt).
Proof. intros Hdyn. unfold run. cbn [snd]. by rewrite Hdyn. Qed.
End TestProperties.

(** ** Observers *)

Section ObserverProperties.
Context {W : Type}.
Implicit Types (o : IRegistryObserver (W := W)) (l : list (IRegistryObserver (W := W))).

Lemma set_insert_addrs o l a :
  a ∈ addr <$> set_insert o l ↔ a = addr o ∨ a ∈ addr <$> l.
Proof.
  induction l as [| x l IH]; cbn [set_insert].
  - by rewrite fmap_cons, elem_of_cons.
  - destruct (addr o <? addr x)%N eqn:Hlt; [by rewrite fmap_cons, elem_of_cons |].
    destruct (addr o =? addr x)%N eqn:Heq.
    + apply N.eqb_eq in Heq. rewrite fmap_cons, elem_of_cons, Heq. tauto.
    + rewrite !fmap_cons, !elem_of_cons, IH. tauto.
Qed.

Lemma set_erase_addrs o l a :
  a ∈ addr <$> set_erase o l ↔ a ≠ addr o ∧ a ∈ addr <$> l.
Proof.
  unfold set_erase. induction l as [| x l IH]; cbn [List.filter].
  - rewrite fmap_nil, elem_of_nil. tauto.
  - rewrite (fmap_cons addr x l), (elem_of_cons _ a (addr x)).
    destruct (addr x =? addr o)%N eqn:Heq; cbn [negb].
    + apply N.eqb_eq in Heq. rewrite IH. split; [tauto |].
      intros [Hne [-> | Hin]]; [congruence | done].
    + apply N.eqb_neq in Heq. rewrite fmap_cons, elem_of_cons, IH. split.
      * intros [-> | [? ?]]; tauto.
      * intros [? [-> | ?]]; tauto.
Qed.

(** Detaching a handle leaves no handle with its address. *)
Lemma removeObserver_gone o (m : RegistryManager) :
  addr o ∉ addr <$> list_observers_ (removeObserver o m).
Proof. cbn [removeObserver set_list_observers_ list_observers_]. rewrite set_erase_addrs. tauto. Qed.

(** In a set the handles have pairwise different addresses. *)
Lemma set_ok_lower_bound l x a :
  set_ok (x :: l) = true → a ∈ addr <$> l → (addr x < a)%N.
Proof.
  revert x. induction l as [| y l IH]; intros x Hok Hin; [by apply elem_of_nil in Hin |].
  cbn [set_ok] in Hok. apply andb_true_iff in Hok as [Hlt Hok].
  apply N.ltb_lt in Hlt. rewrite fmap_cons in Hin.
  apply elem_of_cons in Hin as [-> | Hin]; [done |].
  specialize (IH y Hok Hin). lia.
Qed.

Lemma set_ok_cons l x y :
  set_ok (x :: y :: l) = (addr x <? addr y)%N && set_ok (y :: l).
Proof. reflexivity. Qed.

Lemma set_ok_tail l x : set_ok (x :: l) = true → set_ok l = true.
Proof.
  destruct l as [| y l]; [done |]. cbn [set_ok]. intros H.
  by apply andb_true_iff in H as [_ H].
Qed.

Lemma set_ok_NoDup l : set_ok l = true → NoDup (addr <$> l).
Proof.
  induction l as [| x l IH]; intros Hok; [constructor |].
  rewrite fmap_cons. constructor.
  - intros Hin. pose proof (set_ok_lower_bound l x (addr x) Hok Hin). lia.
  - apply IH. by apply set_ok_tail in Hok.
Qed.

Lemma set_insert_ok o l : set_ok l = true → set_ok (set_insert o l) = true.
Proof.
  induction l as [| x l IH]; intros Hok; [done |].
  cbn [set_insert]. destruct (addr o <? addr x)%N eqn:Hlt.
  - cbn [set_ok]. by rewrite Hlt.
  - destruct (addr o =? addr x)%N eqn:Heq; [done |].
    pose proof (set_ok_tail _ _ Hok) as Hok'. specialize (IH Hok').
    apply N.ltb_ge in Hlt. apply N.eqb_neq in Heq.
    destruct l as [| y l]; cbn [set_insert set_ok].
    + rewrite andb_true_r. apply N.ltb_lt. lia.
    + cbn [set_ok] in Hok. apply andb_true_iff in Hok as [Hxy _].
      cbn [set_insert] in IH.
      destruct (addr o <? addr y)%N eqn:Hoy.
      * cbn [set_ok]. rewrite Hoy. cbn [set_ok] in Hok'. rewrite Hok'.
        rewrite !andb_true_r. apply N.ltb_lt. lia.
      * destruct (addr o =? addr y)%N; [by cbn [set_ok]; rewrite Hxy |].
        cbn [set_ok] in IH |- *. by rewrite Hxy.
Qed.

Lemma set_erase_ok o l : set_ok l = true → set_ok (set_erase o l) = true.
Proof.
  unfold set_erase. induction l as [| x l IH]; intros Hok; [done |].
  pose proof (set_ok_tail _ _ Hok) as Hok'. specialize (IH Hok').
  cbn [List.filter]. destruct (negb (addr x =? addr o)%N); [| done].
  destruct (List.filter _ l) as [| y l'] eqn:Hf; [done |].
  rewrite set_ok_cons, IH, andb_true_r. apply N.ltb_lt.
  apply (set_ok_lower_bound l x (addr y) Hok).
  assert (Hy : y ∈ List.filter (λ x0, negb (addr x0 =? addr o)%N) l)
    by (rewrite Hf; left).
  apply list_elem_of_In, filter_In in Hy as [Hy _].
  by apply list_elem_of_fmap_2, list_elem_of_In.
Qed.
End ObserverProperties.

(** ** The runner *)

Section RunnerProperties.
Context {W : Type}.
Variable elapsed : W → W → spec_float.
Variable ScenarioName : type_index.
Implicit Types (σ : Machine (W := W)) (t : Test (W := W)) (ts : list (Test (W := W)))
  (os : list (IRegistryObserver (W := W))) (infos : TestInfo (W := W))
  (m : RegistryManager (W := W)).

Local Abbreviation tests_of σ := (registry σ !!! ScenarioName).
Local Abbreviation called infos m :=
  (λ o, {| ev_observer := addr o; ev_infos := infos; ev_manager := m |}).

Lemma notify_each_cons o os infos σ :
  notify_each (o :: os) infos σ =
    let σa := set_calls (calls σ ++ [called infos (this σ) o]) σ in
    match update o infos (world σ) with
    | (w', Val _) => notify_each os infos (set_world w' σa)
    | (w', Exc e) => (set_world w' σa, Exc e)
    end.
Proof.
  cbn [notify_each]. unfold bind, modify, lift_world. cbn [world set_calls].
  by destruct (update o infos (world σ)) as [w' [[] | e]].
Qed.

(** [notify] calls the observers in the order of the set, until one
    of them throws; it touches neither the manager nor the registry. *)
Lemma notify_each_spec os infos σ :
  ∃ k,
    this (notify_each os infos σ).1 = this σ
    ∧ registry (notify_each os infos σ).1 = registry σ
    ∧ calls (notify_each os infos σ).1 = calls σ ++ (called infos (this σ) <$> take k os)
    ∧ ((notify_each os infos σ).2 = Val tt → take k os = os).
Proof.
  revert σ. induction os as [| o os IH]; intros σ.
  - exists 0. cbn. by rewrite app_nil_r.
  - rewrite notify_each_cons. cbv zeta.
    destruct (update o infos (world σ)) as [w' [[] | e]].
    + match goal with |- context [notify_each os infos ?s] => set (σa := s) end.
      destruct (IH σa) as (k & H1 & H2 & H3 & H4). exists (S k).
      rewrite H1, H2, H3. subst σa. cbn [this registry calls set_world set_calls take].
      rewrite fmap_cons.
      split; [done | split; [done | split]].
      * by rewrite <- app_assoc.
      * intros Hr. by rewrite (H4 Hr).
    + exists 1. cbn [fst snd this registry calls set_world set_calls take].
      rewrite take_0. done.
Qed.


(** One turn of the loop, step by step. *)
Lemma run_case_eq i t σ :
  run_case elapsed ScenarioName i t σ =
    let after := run elapsed (world σ, t) in
    let t' := after.1.2 in
    let σ1 :=
      set_this (accumulate (getExecTimeMs t') (this σ))
        (set_world after.1.1
           (set_registry (<[ScenarioName := <[i := t']> (tests_of σ)]> (registry σ)) σ)) in
    let told := notify_each (list_observers_ (this σ)) {| test_ref := i; test := t' |} σ1 in
    match told.2 with
    | Val _ => (set_this (file i (getStatus t') (this told.1)) told.1, Val tt)
    | Exc e => (told.1, Exc e)
    end.
Proof.
  pose proof (run_returns elapsed (world σ, t)) as Hret.
  cbv [run_case bind run_element on_manager modify notify get].
  destruct (run elapsed (world σ, t)) as [[w' t'] r]. cbn [fst snd] in *. subst r.
  cbv zeta.
  match goal with
  | |- (let (_, _) := notify_each ?a ?b ?c in _) =
       match (notify_each ?a' ?b' ?c').2 with _ => _ end =>
      change (notify_each a b c) with (notify_each a' b' c');
      destruct (notify_each a' b' c') as [σ3 [[] | e]]
  end; reflexivity.
Qed.

Lemma file_bucket i st m st' :
  st' ≠ NONE →
  bucket st' (file i st m) = bucket st' m ++ (if Status_eqb st st' then [i] else []).
Proof. destruct st, st'; cbn; rewrite ?app_nil_r; done. Qed.

Lemma file_frame i st m :
  list_observers_ (file i st m) = list_observers_ m
  ∧ run_ (file i st m) = run_ m
  ∧ exec_time_ms_accumulator_ (file i st m) = exec_time_ms_accumulator_ m.
Proof. by destruct st. Qed.

(** One turn of the loop: the object of the test is replaced by the
    one [run] leaves, the observers are called with the manager as it
    is after the duration was added, and the reference is filed when
    no observer threw. *)
Lemma run_case_spec i t σ :
  let t' := (run elapsed (world σ, t)).1.2 in
  let m1 := accumulate (getExecTimeMs t') (this σ) in
  let res := run_case elapsed ScenarioName i t σ in
  ∃ k,
    registry res.1 = <[ScenarioName := <[i := t']> (tests_of σ)]> (registry σ)
    ∧ calls res.1 =
        calls σ ++ (called {| test_ref := i; test := t' |} m1
                      <$> take k (list_observers_ (this σ)))
    ∧ (res.2 = Val tt → take k (list_observers_ (this σ)) = list_observers_ (this σ))
    ∧ this res.1 = match res.2 with
                   | Val _ => file i (getStatus t') m1
                   | Exc _ => m1
                   end.
Proof.
  intros t' m1 res. subst res. rewrite run_case_eq. cbv zeta. fold t'. fold m1.
  match goal with |- context [notify_each ?a ?b ?c] =>
    destruct (notify_each_spec a b c) as (k & H1 & H2 & H3 & H4);
    destruct (notify_each a b c) as [σ3 r]
  end.
  exists k. cbn [fst snd this registry calls set_this set_world set_registry] in *.
  destruct r as [[] | e]; cbn [fst snd this registry calls set_this]; rewrite ?H1; done.
Qed.

Lemma run_cases_cons i t ts σ :
  run_cases elapsed ScenarioName i (t :: ts) σ =
    match run_case elapsed ScenarioName i t σ with
    | (σ1, Val _) => run_cases elapsed ScenarioName (S i) ts σ1
    | (σ1, Exc e) => (σ1, Exc e)
    end.
Proof. reflexivity. Qed.

(** The loop keeps the observers, the flag and the length of the
    list, and leaves the objects before position [i] alone. *)
Lemma run_cases_frame ts i σ :
  let res := run_cases elapsed ScenarioName i ts σ in
  list_observers_ (this res.1) = list_observers_ (this σ)
  ∧ run_ (this res.1) = run_ (this σ)
  ∧ length (tests_of res.1) = length (tests_of σ)
  ∧ (∀ j, j < i → tests_of res.1 !! j = tests_of σ !! j)
  ∧ (∀ key, key ≠ ScenarioName → registry res.1 !! key = registry σ !! key).
Proof.
  revert i σ. induction ts as [| t ts IH]; intros i σ; [done |].
  cbv zeta. rewrite run_cases_cons.
  destruct (run_case_spec i t σ) as (k & Hreg & _ & _ & Hthis).
  destruct (run_case elapsed ScenarioName i t σ) as [σ1 r].
  cbn [fst snd] in Hreg, Hthis.
  assert (Hm : list_observers_ (this σ1) = list_observers_ (this σ)
               ∧ run_ (this σ1) = run_ (this σ)).
  { rewrite Hthis. destruct r; [| done].
    by destruct (file_frame i (getStatus (run elapsed (world σ, t)).1.2)
                   (accumulate (getExecTimeMs (run elapsed (world σ, t)).1.2) (this σ)))
      as (-> & -> & _). }
  assert (Hl : tests_of σ1 = <[i := (run elapsed (world σ, t)).1.2]> (tests_of σ))
    by (rewrite Hreg; apply lookup_total_insert_eq).
  assert (Hk : ∀ key, key ≠ ScenarioName → registry σ1 !! key = registry σ !! key)
    by (intros key Hne; rewrite Hreg; by apply lookup_insert_ne).
  destruct r as [[] | e]; cbn [fst snd].
  - destruct (IH (S i) σ1) as (H1 & H2 & H3 & H4 & H5).
    rewrite H1, H2, H3. destruct Hm as [-> ->]. rewrite Hl, length_insert.
    split; [done | split; [done | split; [done | split]]].
    + intros j Hj. rewrite H4 by lia. rewrite Hl. apply list_lookup_insert_ne. lia.
    + intros key Hne. rewrite H5 by done. by apply Hk.
  - destruct Hm as [-> ->]. rewrite Hl, length_insert.
    split; [done | split; [done | split; [done | split]]]; [| done].
    intros j Hj. apply list_lookup_insert_ne. lia.
Qed.

Lemma accumulate_bucket d m st : bucket st (accumulate d m) = bucket st m.
Proof. by destruct st. Qed.

Lemma drop_cons_inv {A} (l : list A) i x rest :
  drop i l = x :: rest → l !! i = Some x ∧ i < length l ∧ drop (S i) l = rest.
Proof.
  intros Hd.
  assert (Hx : l !! i = Some x).
  { rewrite <- (Nat.add_0_r i), <- lookup_drop, Hd. done. }
  split; [done | split; [by eapply lookup_lt_Some |]].
  rewrite (drop_S l x i Hx) in Hd. by injection Hd.
Qed.

(** Each vector receives, in the order of the run, the positions of
    the cases that ended with its status: after the loop has taken
    [k] cases from position [i], the vector of a status is what it
    was followed by the positions in [i, i + k) whose object holds
    that status, and no object there is left [NONE]. *)
Lemma run_cases_buckets ts i σ :
  drop i (tests_of σ) = ts →
  let res := run_cases elapsed ScenarioName i ts σ in
  ∃ k, k ≤ length ts
    ∧ (res.2 = Val tt → k = length ts)
    ∧ (∀ j, i ≤ j < i + k → status_at (tests_of res.1) j ≠ NONE)
    ∧ (∀ st, st ≠ NONE →
         bucket st (this res.1) =
           bucket st (this σ) ++
           List.filter (λ j, Status_eqb (status_at (tests_of res.1) j) st) (seq i k)).
Proof.
  revert i σ. induction ts as [| t ts IH]; intros i σ Hdrop.
  - exists 0. cbn. split; [done | split; [done | split; [intros; lia |]]].
    intros st _. by rewrite app_nil_r.
  - cbv zeta. rewrite run_cases_cons.
    apply drop_cons_inv in Hdrop as (Hi & Hlen & Hrest).
    destruct (run_case_spec i t σ) as (k0 & Hreg & _ & _ & Hthis).
    pose proof (run_status elapsed (world σ, t)) as Hst.
    set (t' := (run elapsed (world σ, t)).1.2) in *.
    destruct (run_case elapsed ScenarioName i t σ) as [σ1 r].
    cbn [fst snd] in Hreg, Hthis.
    destruct r as [[] | e]; cbn [fst snd].
    + assert (Hl : tests_of σ1 = <[i := t']> (tests_of σ))
        by (rewrite Hreg; apply lookup_total_insert_eq).
      assert (Hdrop1 : drop (S i) (tests_of σ1) = ts)
        by (rewrite Hl, drop_insert_lt by lia; done).
      destruct (IH (S i) σ1 Hdrop1) as (k & Hk & Hall & Hnone & Hb).
      destruct (run_cases_frame ts (S i) σ1) as (_ & _ & _ & Hkeep & _).
      set (σ' := (run_cases elapsed ScenarioName (S i) ts σ1).1) in *.
      assert (Hati : status_at (tests_of σ') i = getStatus t').
      { unfold status_at. rewrite Hkeep by lia. rewrite Hl.
        by rewrite list_lookup_insert_eq. }
      exists (S k). cbn [length]. split; [lia | split; [intros Hr; by rewrite Hall |]].
      split.
      * intros j Hj. destruct (decide (j = i)) as [-> | Hne].
        -- by rewrite Hati.
        -- apply Hnone. lia.
      * intros st Hne. rewrite (Hb st Hne), Hthis, file_bucket, accumulate_bucket by done.
        cbn [seq List.filter]. rewrite Hati, <- app_assoc.
        by destruct (Status_eqb (getStatus t') st).
    + exists 0. cbn [seq List.filter]. split; [lia | split; [done |]].
      split; [intros; lia |]. intros st _.
      by rewrite Hthis, accumulate_bucket, app_nil_r.
Qed.

(** Four statuses, each position under one of them. *)
Lemma filter_status_partition (f : nat → Status) (l : list nat) :
  (∀ j, j ∈ l → f j ≠ NONE) →
  List.filter (λ j, Status_eqb (f j) PASSED) l ++
  List.filter (λ j, Status_eqb (f j) FAILED) l ++
  List.filter (λ j, Status_eqb (f j) ERROR) l ++
  List.filter (λ j, Status_eqb (f j) SKIPPED) l ≡ₚ l.
Proof.
  induction l as [| j l IH]; intros Hf; [done |].
  assert (IH' := IH (λ j' Hj', Hf j' (list_elem_of_further _ _ _ Hj'))).
  assert (Hj := Hf j (list_elem_of_here _ _)).
  cbn [List.filter]. symmetry.
  destruct (f j); cbn [Status_eqb]; [| | | | done].
  - by constructor.
  - by apply Permutation_cons_app.
  - rewrite app_assoc. apply Permutation_cons_app. by rewrite <- app_assoc.
  - rewrite !app_assoc. apply Permutation_cons_app. by rewrite <- !app_assoc.
Qed.

Lemma received_app a (evs1 evs2 : list (Event (W := W))) :
  received a (evs1 ++ evs2) = received a evs1 ++ received a evs2.
Proof. unfold received. by rewrite List.filter_app, map_app. Qed.

Lemma received_other a (evs : list (Event (W := W))) :
  Forall (λ ev, ev_observer ev ≠ a) evs → received a evs = [].
Proof.
  unfold received. induction 1 as [| ev evs Hev _ IH]; [done |].
  cbn [List.filter]. apply N.eqb_neq in Hev. by rewrite Hev.
Qed.

(** One call of [notify] that reaches every observer of a set gives
    each handle of the set one call. *)
Lemma received_called a os infos m :
  NoDup (addr <$> os) → a ∈ addr <$> os →
  received a (called infos m <$> os) = [test_ref infos].
Proof.
  induction os as [| o os IH]; intros Hnd Hin; [by apply elem_of_nil in Hin |].
  rewrite fmap_cons in Hnd, Hin. apply NoDup_cons in Hnd as [Hnotin Hnd].
  rewrite fmap_cons. change (?x :: ?l) with ([x] ++ l). rewrite received_app.
  destruct (decide (addr o = a)) as [<- | Hne].
  - rewrite (received_other (addr o) (called infos m <$> os)).
    + unfold received. cbn. by rewrite N.eqb_refl.
    + apply Forall_fmap, Forall_forall. intros o' Ho' Heq. cbn in Heq.
      apply Hnotin. rewrite <- Heq. by apply list_elem_of_fmap_2.
  - apply elem_of_cons in Hin as [-> | Hin]; [done |].
    rewrite (IH Hnd Hin). unfold received. cbn.
    apply N.eqb_neq in Hne. by rewrite Hne.
Qed.

Lemma accumulate_frame d m :
  list_observers_ (accumulate d m) = list_observers_ m
  ∧ run_ (accumulate d m) = run_ m.
Proof. done. Qed.

(** The calls the loop makes: every one of them goes to a handle of
    the set and finds the flag as it was when the loop began; when
    the loop ends normally, a handle of the set has received one call
    for each case, in the order of the cases. *)
Lemma run_cases_calls ts i σ :
  let res := run_cases elapsed ScenarioName i ts σ in
  let os := list_observers_ (this σ) in
  ∃ evs, calls res.1 = calls σ ++ evs
    ∧ Forall (λ ev, run_ (ev_manager ev) = run_ (this σ)
                    ∧ ev_observer ev ∈ addr <$> os) evs
    ∧ (res.2 = Val tt → ∀ a, NoDup (addr <$> os) → a ∈ addr <$> os →
         received a evs = seq i (length ts)).
Proof.
  revert i σ. induction ts as [| t ts IH]; intros i σ.
  - exists []. cbn. by rewrite app_nil_r.
  - cbv zeta. rewrite run_cases_cons.
    destruct (run_case_spec i t σ) as (k & _ & Hcalls & Hall & Hthis).
    set (t' := (run elapsed (world σ, t)).1.2) in *.
    set (m1 := accumulate (getExecTimeMs t') (this σ)) in *.
    set (os := list_observers_ (this σ)) in *.
    assert (Hfirst : Forall (λ ev, run_ (ev_manager ev) = run_ (this σ)
                                   ∧ ev_observer ev ∈ addr <$> os)
                       (called {| test_ref := i; test := t' |} m1 <$> take k os)).
    { apply Forall_fmap, Forall_forall. intros o Ho. cbn. split; [done |].
      apply list_elem_of_fmap_2. by apply (subseteq_take k os). }
    destruct (run_case elapsed ScenarioName i t σ) as [σ1 r].
    cbn [fst snd] in Hcalls, Hall, Hthis.
    destruct r as [[] | e]; cbn [fst snd].
    + destruct (IH (S i) σ1) as (evs & Hevs & Hfa & Hrec).
      assert (Hos : list_observers_ (this σ1) = os)
        by (rewrite Hthis; by destruct (file_frame i (getStatus t') m1) as (-> & _)).
      assert (Hrun : run_ (this σ1) = run_ (this σ))
        by (rewrite Hthis; by destruct (file_frame i (getStatus t') m1) as (_ & -> & _)).
      rewrite Hos, Hrun in *.
      eexists. split; [by rewrite Hevs, Hcalls, <- app_assoc |].
      split; [by apply Forall_app |].
      intros Hr a Hnd Ha. rewrite received_app, (Hrec Hr a Hnd Ha).
      rewrite (Hall eq_refl), received_called by done. done.
    + eexists. split; [exact Hcalls |]. split; [done | discriminate].
Qed.



(** [run_tests], step by step. *)
Lemma run_tests_eq σ :
  run_tests elapsed ScenarioName σ =
    match run_cases elapsed ScenarioName 0 (tests_of σ)
            (set_registry (<[ScenarioName := tests_of σ]> (registry σ)) σ) with
    | (σ1, Val _) => (set_this (set_run_ true (this σ1)) σ1, Val tt)
    | (σ1, Exc e) => (σ1, Exc e)
    end.
Proof.
  cbv [run_tests bind registry_entry on_manager modify].
  by destruct (run_cases _ _ _ _ _) as [σ1 [[] | e]].
Qed.

(** A scenario that has not been run holds no result. *)
Lemma Pending_inv m :
  Pending m →
  run_ m = false
  ∧ exec_time_ms_accumulator_ m = Duration_zero
  ∧ (∀ st, bucket st m = [])
  ∧ set_ok (list_observers_ m) = true.
Proof.
  induction 1 as [| o m _ (H1 & H2 & H3 & H4) | o m _ (H1 & H2 & H3 & H4)].
  - split; [done | split; [done | split; [by intros [] | done]]].
  - split; [done | split; [done | split; [intros st; by rewrite <- (H3 st); destruct st |]]].
    by apply set_insert_ok.
  - split; [done | split; [done | split; [intros st; by rewrite <- (H3 st); destruct st |]]].
    by apply set_erase_ok.
Qed.

(** C2: when [run_tests] has been run once, to its end, on a
    scenario that had not been run, the four vectors partition the
    registered cases: each vector holds, in the order of the run,
    the positions of the cases that ended with its status, every
    position of the list stands in one vector and in one only, and
    the four counts add up to the number of registered cases. *)
Theorem run_tests_partitions_cases σ :
  Pending (this σ) →
  (run_tests elapsed ScenarioName σ).2 = Val tt →
  let σ' := (run_tests elapsed ScenarioName σ).1 in
  let m := this σ' in
  let n := length (getAllTests ScenarioName (registry σ)) in
  let outcome := status_at (getAllTests ScenarioName (registry σ')) in
  getPassedTests m = List.filter (λ j, Status_eqb (outcome j) PASSED) (seq 0 n)
  ∧ getFailedTests m = List.filter (λ j, Status_eqb (outcome j) FAILED) (seq 0 n)
  ∧ getWithErrorTests m = List.filter (λ j, Status_eqb (outcome j) ERROR) (seq 0 n)
  ∧ getSkippedTests m = List.filter (λ j, Status_eqb (outcome j) SKIPPED) (seq 0 n)
  ∧ getPassedTests m ++ getFailedTests m ++ getWithErrorTests m ++ getSkippedTests m
    ≡ₚ seq 0 n
  ∧ getPassedCount m + getFailedCount m + getWithErrorCount m + getSkippedCount m
    = getAllTestsCount ScenarioName m (registry σ')
  ∧ getAllTestsCount ScenarioName m (registry σ') = n.
Proof.
  intros Hpending. destruct (Pending_inv _ Hpending) as (_ & _ & Hempty & _).
  rewrite run_tests_eq.
  set (σ0 := set_registry (<[ScenarioName := tests_of σ]> (registry σ)) σ).
  assert (H0 : tests_of σ0 = tests_of σ) by apply lookup_total_insert_eq.
  assert (Hdrop : drop 0 (tests_of σ0) = tests_of σ) by (by rewrite H0).
  destruct (run_cases_buckets (tests_of σ) 0 σ0 Hdrop) as (k & _ & Hk & Hnone & Hb).
  destruct (run_cases_frame (tests_of σ) 0 σ0) as (_ & _ & Hlen & _).
  destruct (run_cases elapsed ScenarioName 0 (tests_of σ) σ0) as [σ1 r].
  cbn [fst snd] in *. destruct r as [[] | e]; [| discriminate].
  intros _. cbv zeta. cbn [fst this registry set_this].
  unfold getPassedTests, getFailedTests, getWithErrorTests, getSkippedTests,
    getPassedCount, getFailedCount, getWithErrorCount, getSkippedCount,
    getAllTestsCount, getAllTests.
  cbn [run_ set_run_ tests_passed_ tests_failed_ tests_with_error_ tests_skipped_].
  specialize (Hk eq_refl). subst k.
  assert (HP := Hb PASSED ltac:(done)). assert (HF := Hb FAILED ltac:(done)).
  assert (HE := Hb ERROR ltac:(done)). assert (HS := Hb SKIPPED ltac:(done)).
  rewrite Hempty in HP, HF, HE, HS. cbn [bucket app] in HP, HF, HE, HS.
  rewrite Hlen, H0.
  assert (Hperm : tests_passed_ (this σ1) ++ tests_failed_ (this σ1) ++
                  tests_with_error_ (this σ1) ++ tests_skipped_ (this σ1)
                  ≡ₚ seq 0 (length (tests_of σ))).
  { rewrite HP, HF, HE, HS. apply filter_status_partition.
    intros j Hj. apply Hnone. apply elem_of_seq in Hj. lia. }
  split; [done | split; [done | split; [done | split; [done | split; [done |]]]]].
  split; [| done].
  apply Permutation_length in Hperm. rewrite !length_app, length_seq in Hperm. lia.
Qed.

(** C3, amended: while the flag is not set, the count accessors and
    the total duration return zero whatever the registry holds; a
    scenario that has not been run has its four vectors empty; the
    accessor of the registered list is not gated: it returns the
    cases as they are registered. *)
Theorem accessors_before_completion m (reg : gmap type_index (list Test)) :
  (run_ m = false →
     getPassedCount m = 0 ∧ getFailedCount m = 0 ∧ getSkippedCount m = 0
     ∧ getWithErrorCount m = 0 ∧ getAllTestsCount ScenarioName m reg = 0
     ∧ getAllTestsExecTimeMs m = Duration_zero)
  ∧ (Pending m →
     run_ m = false
     ∧ getPassedTests m = [] ∧ getFailedTests m = []
     ∧ getSkippedTests m = [] ∧ getWithErrorTests m = [])
  ∧ (∀ t, getAllTests ScenarioName (push_back ScenarioName t reg)
          = getAllTests ScenarioName reg ++ [t]).
Proof.
  split; [| split].
  - intros Hrun. unfold getPassedCount, getFailedCount, getSkippedCount,
      getWithErrorCount, getAllTestsCount, getAllTestsExecTimeMs. by rewrite Hrun.
  - intros Hp. destruct (Pending_inv _ Hp) as (Hrun & _ & Hempty & _).
    split; [done |].
    exact (conj (Hempty PASSED) (conj (Hempty FAILED)
             (conj (Hempty SKIPPED) (Hempty ERROR)))).
  - intros t. unfold getAllTests, push_back. apply lookup_total_insert_eq.
Qed.


(** The calls recorded in a run that comes to its end: every handle
    attached to the scenario has one call for each registered case,
    skipped ones too, in the order of the cases. *)
Theorem each_observer_notified_once_per_case σ (a : N) :
  set_ok (list_observers_ (this σ)) = true →
  a ∈ addr <$> list_observers_ (this σ) →
  (run_tests elapsed ScenarioName σ).2 = Val tt →
  ∃ evs, calls (run_tests elapsed ScenarioName σ).1 = calls σ ++ evs
    ∧ received a evs = seq 0 (length (getAllTests ScenarioName (registry σ))).
Proof.
  intros Hok Ha. rewrite run_tests_eq.
  set (σ0 := set_registry (<[ScenarioName := tests_of σ]> (registry σ)) σ).
  destruct (run_cases_calls (tests_of σ) 0 σ0) as (evs & Hevs & _ & Hrec).
  destruct (run_cases elapsed ScenarioName 0 (tests_of σ) σ0) as [σ1 r].
  cbn [fst snd] in *. destruct r as [[] | e]; [| discriminate].
  intros _. exists evs. split; [done |].
  apply (Hrec eq_refl a); [| done]. by apply set_ok_NoDup.
Qed.

(** C9: a handle that is attached and then detached before the run
    receives no call in that run. *)
Theorem detached_observer_not_notified σ (o : IRegistryObserver) :
  let σ0 := set_this (removeObserver o (addObserver o (this σ))) σ in
  ∃ evs, calls (run_tests elapsed ScenarioName σ0).1 = calls σ ++ evs
    ∧ Forall (λ ev, ev_observer ev ≠ addr o) evs
    ∧ received (addr o) evs = [].
Proof.
  cbv zeta. rewrite run_tests_eq.
  set (m := removeObserver o (addObserver o (this σ))).
  set (σ0 := set_registry _ (set_this m σ)).
  destruct (run_cases_calls (tests_of (set_this m σ)) 0 σ0) as (evs & Hevs & Hfa & _).
  assert (Hno : Forall (λ ev : Event, ev_observer ev ≠ addr o) evs).
  { eapply Forall_impl; [exact Hfa |]. intros ev [_ Hin] Heq. rewrite Heq in Hin.
    by apply (removeObserver_gone o (addObserver o (this σ))). }
  exists evs. split; [| split; [done | by apply received_other]].
  destruct (run_cases _ _ _ _ _) as [σ1 [[] | e]]; exact Hevs.
Qed.

(** C10, amended: in a run entered with the flag not set, the first
    run of a scenario, the flag stays unset after any number of turns
    of the loop, so every call made to an observer finds the count
    accessors and the total duration at zero; the flag is set when,
    and only when, the loop has come to its end. *)
Theorem results_hidden_until_loop_ends σ :
  run_ (this σ) = false →
  let res := run_tests elapsed ScenarioName σ in
  let tests := getAllTests ScenarioName (registry σ) in
  (∀ k, run_ (this (run_cases elapsed ScenarioName 0 (take k tests)
                      (set_registry (<[ScenarioName := tests]> (registry σ)) σ)).1)
        = false)
  ∧ (∃ evs, calls res.1 = calls σ ++ evs
       ∧ Forall (λ ev,
            let m := ev_manager ev in
            getPassedCount m = 0 ∧ getFailedCount m = 0 ∧ getSkippedCount m = 0
            ∧ getWithErrorCount m = 0
            ∧ (∀ reg, getAllTestsCount ScenarioName m reg = 0)
            ∧ getAllTestsExecTimeMs m = Duration_zero) evs)
  ∧ (run_ (this res.1) = true ↔ res.2 = Val tt).
Proof.
  intros Hrun. cbv zeta. split; [| split].
  - intros k.
    destruct (run_cases_frame (take k (getAllTests ScenarioName (registry σ))) 0
                (set_registry (<[ScenarioName := getAllTests ScenarioName (registry σ)]>
                                 (registry σ)) σ)) as (_ & -> & _).
    exact Hrun.
  - rewrite run_tests_eq.
    set (σ0 := set_registry (<[ScenarioName := tests_of σ]> (registry σ)) σ).
    destruct (run_cases_calls (tests_of σ) 0 σ0) as (evs & Hevs & Hfa & _).
    exists evs. split.
    + destruct (run_cases _ _ _ _ _) as [σ1 [[] | e]]; exact Hevs.
    + eapply Forall_impl; [exact Hfa |]. intros ev [Hev _]. cbn in Hev.
      rewrite Hrun in Hev. cbv zeta.
      unfold getPassedCount, getFailedCount, getSkippedCount, getWithErrorCount,
        getAllTestsCount, getAllTestsExecTimeMs. by rewrite Hev.
  - rewrite run_tests_eq.
    set (σ0 := set_registry (<[ScenarioName := tests_of σ]> (registry σ)) σ).
    destruct (run_cases_frame (tests_of σ) 0 σ0) as (_ & Hkeep & _).
    destruct (run_cases _ _ _ _ _) as [σ1 [[] | e]]; cbn [fst snd] in *.
    + done.
    + rewrite Hkeep. cbn. rewrite Hrun. split; discriminate.
Qed.
End RunnerProperties.

(** * The sample scenario *)

Module SampleRuns.
Import Sample.


Lemma sample_outcomes :
  let σ := run_scenario (machine manager) in
  world σ = 3
  ∧ getStatus <$> registry σ !!! Math = [PASSED; FAILED; ERROR; SKIPPED]
  ∧ getError <$> registry σ !!! Math = [EmptyString; EmptyString; "out of domain"; EmptyString]
  ∧ (getPassedTests (this σ), getFailedTests (this σ),
     getWithErrorTests (this σ), getSkippedTests (this σ)) = ([0], [1], [2], [3]).
Proof. vm_compute. done. Qed.

(** A thrown [int] has no [what()]: the error is the fixed text. *)
Lemma thrown_int_is_unknown_error :
  let t' := (run elapsed (0, make_test "throws an int" throws_int)).1.2 in
  getStatus t' = ERROR ∧ getError t' = "Unkown error" ∧ getExecTimeMs t' = ms d_1.
Proof. vm_compute. done. Qed.

Lemma manager_Pending : Pending manager.
Proof. repeat constructor. Qed.

Lemma run_tests_partitions_cases_witness :
  Pending (this (machine manager))
  ∧ (run_tests elapsed Math (machine manager)).2 = Val tt
  ∧ let σ' := (run_tests elapsed Math (machine manager)).1 in
    let m := this σ' in
    let n := length (getAllTests Math (registry (machine manager))) in
    let outcome := status_at (getAllTests Math (registry σ')) in
    getPassedTests m = List.filter (λ j, Status_eqb (outcome j) PASSED) (seq 0 n)
    ∧ getFailedTests m = List.filter (λ j, Status_eqb (outcome j) FAILED) (seq 0 n)
    ∧ getWithErrorTests m = List.filter (λ j, Status_eqb (outcome j) ERROR) (seq 0 n)
    ∧ getSkippedTests m = List.filter (λ j, Status_eqb (outcome j) SKIPPED) (seq 0 n)
    ∧ getPassedTests m ++ getFailedTests m ++ getWithErrorTests m ++ getSkippedTests m
      ≡ₚ seq 0 n
    ∧ getPassedCount m + getFailedCount m + getWithErrorCount m + getSkippedCount m
      = getAllTestsCount Math m (registry σ')
    ∧ getAllTestsCount Math m (registry σ') = n.
Proof.
  split; [exact manager_Pending |]. split; [vm_compute; reflexivity |].
  apply (run_tests_partitions_cases elapsed Math (machine manager)).
  - exact manager_Pending.
  - vm_compute; reflexivity.
Defined.

(** C3 as stated fails: before any run, with the flag unset, the
    accessor of the registered list returns the four registered
    cases, not an empty sequence; and during the run the call made
    for the second case finds the first case in the vector of passed
    tests, the flag still unset. *)
Lemma lists_not_empty_before_completion :
  Pending manager ∧ run_ manager = false
  ∧ getAllTests Math registered = [t_adds; t_fails; t_throws; t_skipped]
  ∧ getAllTests Math registered ≠ []
  ∧ (λ ev, (test_ref (ev_infos ev), run_ (ev_manager ev), getPassedTests (ev_manager ev)))
      <$> calls (run_scenario (machine manager)) !! 2
    = Some (1, false, [0]).
Proof.
  split; [exact manager_Pending |]. split; [reflexivity |].
  assert (H : getAllTests Math registered = [t_adds; t_fails; t_throws; t_skipped])
    by (vm_compute; reflexivity).
  split; [exact H |]. split; [rewrite H; discriminate |].
  vm_compute. reflexivity.
Qed.

Lemma accessors_before_completion_witness :
  run_ manager = false ∧ Pending manager
  ∧ (getPassedCount manager = 0 ∧ getFailedCount manager = 0
     ∧ getSkippedCount manager = 0 ∧ getWithErrorCount manager = 0
     ∧ getAllTestsCount Math manager registered = 0
     ∧ getAllTestsExecTimeMs manager = Duration_zero)
  ∧ (getPassedTests manager = [] ∧ getFailedTests manager = []
     ∧ getSkippedTests manager = [] ∧ getWithErrorTests manager = []).
Proof.
  destruct (accessors_before_completion Math manager registered) as (H1 & H2 & _).
  split; [reflexivity |]. split; [exact manager_Pending |].
  split; [exact (H1 eq_refl) |]. exact (proj2 (H2 manager_Pending)).
Defined.


(** The sum of the durations after two runs of a scenario of one
    passing case is two milliseconds; one run gives one. *)
Lemma second_run_doubles_duration :
  let σ := {| world := 0; registry := add_test Math "adds" counts ∅;
              this := RegistryManager_ctor; calls := [] |} in
  let once := run_scenario σ in
  let twice := run_scenario once in
  getAllTestsExecTimeMs (this once) = ms d_1
  ∧ getAllTestsExecTimeMs (this twice) = ms (S754_finite false 4503599627370496 (-51)).
Proof. vm_compute. done. Qed.

(** C5: the duration of a skipped test after [run] is the one its
    constructor left, which is not zero; the procedure did not run. *)
Lemma skipped_test_duration_not_zero :
  let after := run elapsed (0, t_skipped) in
  after.1.1 = 0 ∧ getStatus after.1.2 = SKIPPED
  ∧ getExecTimeMs after.1.2 = indeterminate
  ∧ getExecTimeMs after.1.2 ≠ Duration_zero.
Proof. vm_compute. done. Qed.

(** C6 as stated fails: with the tolerance -0.5, 1.25 is asserted
    equal to 1.0 and the call returns; no error is raised. *)
Lemma negative_tolerance_accepted :
  SFltb d_minus_0_5 (S754_zero false) = true
  ∧ isEqualTo_double show d_1_25 d_1 d_minus_0_5 EmptyString LineInfo_default tt
    = (tt, Val Empty).
Proof. vm_compute. done. Qed.

Lemma isEqualTo_tolerance_compares_with_abs_witness :
  SFleb (S754_zero false) d_0_5 = true
  ∧ let result := isEqualTo_double show d_1_25 d_1 d_0_5 EmptyString LineInfo_default tt in
    result.2 = Val Empty ↔ SFleb (SFabs (SFsub 53 1024 d_1 d_1_25)) d_0_5 = true.
Proof.
  split; [reflexivity |].
  apply (isEqualTo_tolerance_compares_with_abs 53 1024 show d_1_25 d_1 d_0_5
           EmptyString LineInfo_default tt).
  reflexivity.
Defined.

(** C7 as stated fails: the procedure throws a [std::domain_error],
    which is not the expected [std::logic_error] but a class derived
    from it, and the assertion succeeds. *)
Lemma expectException_accepts_derived_class :
  std_domain_error ≠ std_logic_error
  ∧ expectException (throw (Object std_domain_error "out of domain"))
      std_logic_error EmptyString LineInfo_default tt
    = (tt, Val Empty).
Proof. split; [discriminate | vm_compute; reflexivity]. Qed.

Lemma each_observer_notified_once_per_case_witness :
  set_ok (list_observers_ (this (machine manager))) = true
  ∧ 3%N ∈ addr <$> list_observers_ (this (machine manager))
  ∧ (run_tests elapsed Math (machine manager)).2 = Val tt
  ∧ ∃ evs, calls (run_tests elapsed Math (machine manager)).1
           = calls (machine manager) ++ evs
      ∧ received 3 evs = seq 0 (length (getAllTests Math (registry (machine manager)))).
Proof.
  assert (H3 : 3%N ∈ addr <$> list_observers_ (this (machine manager))) by (by left).
  split; [reflexivity |]. split; [exact H3 |]. split; [vm_compute; reflexivity |].
  apply (each_observer_notified_once_per_case elapsed Math (machine manager) 3).
  - reflexivity.
  - exact H3.
  - vm_compute; reflexivity.
Defined.

Lemma results_hidden_until_loop_ends_witness :
  run_ (this (machine manager)) = false
  ∧ (run_ (this (run_tests elapsed Math (machine manager)).1) = true
     ↔ (run_tests elapsed Math (machine manager)).2 = Val tt).
Proof.
  split; [reflexivity |].
  apply (results_hidden_until_loop_ends elapsed Math (machine manager)).
  reflexivity.
Defined.
End SampleRuns.

(** * More properties *)

(** ** Texts *)


Lemma append_assoc (a b c : string) : (a +:+ b) +:+ c = a +:+ (b +:+ c).
Proof.
  induction a as [| x a IH]; [reflexivity |].
  change (String x (a +:+ b) +:+ c = String x (a +:+ (b +:+ c))).
  change (String x ((a +:+ b) +:+ c) = String x (a +:+ (b +:+ c))).
  by rewrite IH.
Qed.



Lemma tolower_idempotent (c : Ascii.ascii) : tolower (tolower c) = tolower c.
Proof.
  unfold tolower at 2 3.
  destruct (Nat.leb 65 (Ascii.nat_of_ascii c) && Nat.leb (Ascii.nat_of_ascii c) 90) eqn:Hup;
    [| unfold tolower; by rewrite Hup].
  apply andb_true_iff in Hup as [H1 H2].
  apply Nat.leb_le in H1, H2. unfold tolower.
  rewrite Ascii.nat_ascii_embedding by lia.
  replace (Nat.leb (Ascii.nat_of_ascii c + 32) 90) with false
    by (symmetry; apply Nat.leb_gt; lia).
  by rewrite andb_false_r.
Qed.

Lemma transform_tolower_idempotent (s : string) :
  transform_tolower (transform_tolower s) = transform_tolower s.
Proof.
  induction s as [| c s IH]; [done |]. cbn. by rewrite tolower_idempotent, IH.
Qed.

Section MoreAsserterProperties.
Context {S : Type}.

(** X2: [isTrue] and [isFalse] are complementary on a [bool]: [isTrue]
    returns exactly on [true], [isFalse] exactly on [false], and the
    one that does not return throws a [TestFailure] classified
    [FailureType::equal] without touching the state.  A failing
    [isFalse] holds the negated expression as the reached value: the
    failure shows [0] reached against [0] expected. *)
Theorem isTrue_isFalse_complementary (expr_ : bool) (message : string)
    (lineInfo : LineInfo) (s : S) :
  ((isTrue expr_ message lineInfo s).2 = Val Empty ↔ expr_ = true)
  ∧ ((isFalse expr_ message lineInfo s).2 = Val Empty ↔ expr_ = false)
  ∧ ((isTrue expr_ message lineInfo s).2 = Val Empty
     ↔ (isFalse expr_ message lineInfo s).2 ≠ Val Empty)
  ∧ (isTrue expr_ message lineInfo s).1 = s ∧ (isFalse expr_ message lineInfo s).1 = s
  ∧ (expr_ = false → ∃ f, (isTrue expr_ message lineInfo s).2 = Exc (Failure f)
       ∧ failure_type_ f = equal ∧ shown_ f = Some ("0", "1"))
  ∧ (expr_ = true → ∃ f, (isFalse expr_ message lineInfo s).2 = Exc (Failure f)
       ∧ failure_type_ f = equal ∧ shown_ f = Some ("0", "0")).
Proof.
  unfold isTrue, isFalse, bind. destruct expr_; cbn [negb show_bool].
  - rewrite FailureTest_true.
    destruct (FailureTest_false (Some ("0", "0")) None equal message lineInfo s)
      as (f & -> & Hft & _ & Hsh). cbn [fst snd].
    split; [done | split; [split; discriminate | split; [| split; [done | split; [done |]]]]].
    + split; [discriminate | done].
    + split; [discriminate | intros _; by exists f].
  - rewrite FailureTest_true.
    destruct (FailureTest_false (Some ("0", "1")) None equal message lineInfo s)
      as (f & -> & Hft & _ & Hsh). cbn [fst snd].
    split; [split; discriminate | split; [done | split; [| split; [done | split; [done |]]]]].
    + split; [discriminate | intros H; by destruct H].
    + split; [intros _; by exists f | discriminate].
Qed.

(** X3: The C string overload of [isEqualTo] returns exactly when the two
    texts are equal, or, with [ignoreCase], when their lowered copies
    are; it leaves the state alone, and a failure holds the two texts
    as they were passed. *)
Theorem isEqualTo_cstr_compares (expr_ expected : string) (ignoreCase : bool)
    (message : string) (lineInfo : LineInfo) (s : S) :
  let result := isEqualTo_cstr expr_ expected ignoreCase message lineInfo s in
  result.1 = s
  ∧ (result.2 = Val Empty ↔
       if ignoreCase then transform_tolower expected = transform_tolower expr_
       else expected = expr_)
  ∧ (result.2 = Val Empty ∨
     ∃ f, result.2 = Exc (Failure f) ∧ failure_type_ f = equal
          ∧ shown_ f = Some (expr_, expected)).
Proof.
  cbv zeta. unfold isEqualTo_cstr, bind.
  set (a := if ignoreCase then transform_tolower expected else expected).
  set (b := if ignoreCase then transform_tolower expr_ else expr_).
  assert (Hab : a = b ↔ if ignoreCase then transform_tolower expected = transform_tolower expr_
                        else expected = expr_) by (subst a b; by destruct ignoreCase).
  rewrite <- Hab. destruct (String.eqb a b) eqn:Heq.
  - rewrite FailureTest_true. apply String.eqb_eq in Heq. cbn [fst snd].
    split; [done | split; [done | by left]].
  - destruct (FailureTest_false (Some (expr_, expected)) None equal message lineInfo s)
      as (f & -> & Hft & _ & Hsh). cbn [fst snd].
    apply String.eqb_neq in Heq.
    split; [done | split; [split; [discriminate | done] | right; by exists f]].
Qed.

(** X4: Ignoring the case only accepts more: a comparison that succeeds
    with the case taken into account succeeds with it ignored. *)
Theorem isEqualTo_cstr_ignoreCase_weaker (expr_ expected : string)
    (message : string) (lineInfo : LineInfo) (s : S) :
  (isEqualTo_cstr expr_ expected false message lineInfo s).2 = Val Empty →
  (isEqualTo_cstr expr_ expected true message lineInfo s).2 = Val Empty.
Proof.
  destruct (isEqualTo_cstr_compares expr_ expected false message lineInfo s) as (_ & H1 & _).
  destruct (isEqualTo_cstr_compares expr_ expected true message lineInfo s) as (_ & H2 & _).
  cbv zeta in H1, H2. rewrite H1, H2. by intros ->.
Qed.
End MoreAsserterProperties.

(** X5: The [std::string] overload of [isEqualTo] with [ignoreCase] lowers
    the expression held by the asserter in place: the member is left
    lowered whether the comparison succeeds or not, and a failure
    holds the lowered texts, not the ones passed.  Without
    [ignoreCase] the member is left as it was. *)
Theorem isEqualTo_string_lowers_expression (expr_ expected : string) (ignoreCase : bool)
    (message : string) (lineInfo : LineInfo) :
  let result := isEqualTo_string expected ignoreCase message lineInfo expr_ in
  result.1 = (if ignoreCase then transform_tolower expr_ else expr_)
  ∧ (result.2 = Val Empty ↔
       if ignoreCase then transform_tolower expected = transform_tolower expr_
       else expected = expr_)
  ∧ (result.2 = Val Empty ∨
     ∃ f, result.2 = Exc (Failure f) ∧ failure_type_ f = equal
          ∧ shown_ f = Some (if ignoreCase
                             then (transform_tolower expr_, transform_tolower expected)
                             else (expr_, expected))).
Proof.
  cbv zeta. unfold isEqualTo_string, bind, modify, get, ret.
  destruct ignoreCase.
  - destruct (String.eqb (transform_tolower expected) (transform_tolower expr_)) eqn:Heq.
    + rewrite FailureTest_true. apply String.eqb_eq in Heq. cbn [fst snd].
      split; [done | split; [done | by left]].
    + destruct (FailureTest_false (Some (transform_tolower expr_, transform_tolower expected))
                  None equal message lineInfo (transform_tolower expr_))
        as (f & -> & Hft & _ & Hsh). cbn [fst snd]. apply String.eqb_neq in Heq.
      split; [done | split; [split; [discriminate | done] | right; by exists f]].
  - destruct (String.eqb expected expr_) eqn:Heq.
    + rewrite FailureTest_true. apply String.eqb_eq in Heq. cbn [fst snd].
      split; [done | split; [done | by left]].
    + destruct (FailureTest_false (Some (expr_, expected)) None equal message lineInfo expr_)
        as (f & -> & Hft & _ & Hsh). cbn [fst snd]. apply String.eqb_neq in Heq.
      split; [done | split; [split; [discriminate | done] | right; by exists f]].
Qed.

(** X6: The names of the statuses are pairwise different. *)
Theorem to_string_injective (a b : Status) : to_string a = to_string b → a = b.
Proof. destruct a, b; (done || discriminate). Qed.

(** ** Assertions inside a test *)

Section MoreTestProperties.
Context {W : Type}.
Variable elapsed : W → W → spec_float.

(** X7: A test whose procedure is an [expectException] ends [PASSED] or
    [FAILED], never [ERROR]: it passes exactly when the inner
    procedure throws an object that a handler for the expected type
    takes, and an exception of any other type is swallowed by the
    assertion and reported as a failure. *)
Theorem expectException_in_test_never_errors (label : string) (expr_ : M W unit)
    (E : ExnType) (message : string) (lineInfo : LineInfo) (w : W) :
  let t := make_test label (expectException expr_ E message lineInfo >> ret tt) in
  let after := run elapsed (w, t) in
  (getStatus after.1.2 = PASSED ↔
     ∃ e, (expr_ w).2 = Exc e ∧ handles E (type_of e) = true)
  ∧ (getStatus after.1.2 = PASSED ∨ getStatus after.1.2 = FAILED)
  ∧ after.1.1 = (expr_ w).1.
Proof.
  cbv zeta. unfold run, make_test, Test_ctor. cbn [snd dynamic_type].
  rewrite Test_run_private_eq. cbn [test_holder_].
  assert (Hp : (expectException expr_ E message lineInfo >> ret tt) w =
               ((expectException expr_ E message lineInfo w).1,
                match (expectException expr_ E message lineInfo w).2 with
                | Val _ => Val tt
                | Exc e => Exc e
                end)).
  { unfold bind at 1. by destruct (expectException expr_ E message lineInfo w) as [? [|]]. }
  rewrite Hp, expectException_cases. clear Hp.
  destruct (expr_ w) as [w' [[] | e]]; cbn [fst snd].
  - destruct (fail_exception_throws E message lineInfo w') as (f & -> & _).
    cbn. split; [| split; [by right | done]].
    split; [discriminate | intros (e & He & _); discriminate].
  - destruct (handles E (type_of e)) eqn:Hh.
    + cbn. split; [| split; [by left | done]]. split; [intros _; by exists e | done].
    + destruct (fail_exception_throws E message lineInfo w') as (f & -> & _).
      cbn. split; [| split; [by right | done]].
      split; [discriminate | intros (e' & He' & Hh')]. injection He' as <-. congruence.
Qed.

End MoreTestProperties.

(** ** More on the runner *)

Section MoreRunnerProperties.
Context {W : Type}.
Variable elapsed : W → W → spec_float.
Variable ScenarioName : type_index.
Implicit Types (σ : Machine (W := W)) (t : Test (W := W)) (ts : list (Test (W := W)))
  (os : list (IRegistryObserver (W := W))) (infos : TestInfo (W := W))
  (m : RegistryManager (W := W)).

Local Abbreviation tests_of σ := (registry σ !!! ScenarioName).

Lemma notify_each_returns os infos σ :
  (∀ o, o ∈ os → ∀ w, (update o infos w).2 = Val tt) →
  (notify_each os infos σ).2 = Val tt.
Proof.
  revert σ. induction os as [| o os IH]; intros σ Hq; [done |].
  rewrite notify_each_cons. cbv zeta.
  pose proof (Hq o (list_elem_of_here _ _) (world σ)) as Ho.
  destruct (update o infos (world σ)) as [w' [[] | e]]; [| discriminate].
  apply IH. intros o' Ho'. apply Hq. by right.
Qed.

Lemma run_cases_returns ts i σ :
  (∀ o, o ∈ list_observers_ (this σ) → ∀ infos w, (update o infos w).2 = Val tt) →
  (run_cases elapsed ScenarioName i ts σ).2 = Val tt.
Proof.
  revert i σ. induction ts as [| t ts IH]; intros i σ Hq; [done |].
  rewrite run_cases_cons.
  destruct (run_case_spec elapsed ScenarioName i t σ) as (_ & _ & _ & _ & Hthis).
  pose proof (run_case_eq elapsed ScenarioName i t σ) as Heq. cbv zeta in Heq.
  match type of Heq with context [notify_each ?a ?b ?c] =>
    pose proof (notify_each_returns a b c (λ o Ho, Hq o Ho b)) as Hn end.
  rewrite Hn in Heq.
  destruct (run_case elapsed ScenarioName i t σ) as [σ1 r].
  injection Heq as _ ->. cbn [fst snd] in Hthis.
  apply IH. intros o Ho. apply Hq. rewrite Hthis in Ho.
  destruct (file_frame i (getStatus (run elapsed (world σ, t)).1.2)
              (accumulate (getExecTimeMs (run elapsed (world σ, t)).1.2) (this σ)))
    as (Hf & _).
  by rewrite Hf in Ho.
Qed.

(** X9: Whatever the procedures of the cases do, [run_tests] returns
    normally when no attached observer throws from [update]; in
    particular it does with no observer attached. *)
Theorem run_tests_returns_unless_observer_throws σ :
  (∀ o, o ∈ list_observers_ (this σ) → ∀ infos w, (update o infos w).2 = Val tt) →
  (run_tests elapsed ScenarioName σ).2 = Val tt
  ∧ run_ (this (run_tests elapsed ScenarioName σ).1) = true.
Proof.
  intros Hq. rewrite run_tests_eq.
  pose proof (run_cases_returns (tests_of σ) 0
                (set_registry (<[ScenarioName := tests_of σ]> (registry σ)) σ) Hq) as Hr.
  destruct (run_cases _ _ _ _ _) as [σ1 r]. cbn [snd] in Hr. by subst r.
Qed.

(** X10: Running a scenario that was never registered, or that holds no
    case, does nothing but set the flag and make the entry of the
    scenario in the registry: no observer is called, the outside
    state and the vectors are as they were, and the count of
    registered cases is zero. *)
Theorem run_tests_without_cases σ :
  getAllTests ScenarioName (registry σ) = [] →
  let res := run_tests elapsed ScenarioName σ in
  res.2 = Val tt
  ∧ world res.1 = world σ
  ∧ calls res.1 = calls σ
  ∧ this res.1 = set_run_ true (this σ)
  ∧ registry res.1 = <[ScenarioName := []]> (registry σ)
  ∧ getAllTestsCount ScenarioName (this res.1) (registry res.1) = 0.
Proof.
  intros Hnone. cbv zeta. rewrite run_tests_eq. unfold getAllTests in Hnone.
  rewrite Hnone. cbn [run_cases ret fst snd world calls this registry set_this set_registry].
  unfold getAllTestsCount. cbn [run_ set_run_]. by rewrite lookup_total_insert_eq.
Qed.

(** A scenario whose key is not in the registry has no case. *)
Lemma getAllTests_missing (reg : gmap type_index (list (Test (W := W)))) :
  reg !! ScenarioName = None → getAllTests ScenarioName reg = [].
Proof. intros H. unfold getAllTests. by rewrite lookup_total_alt, H. Qed.

(** X11: The run of a scenario leaves the lists of the other scenarios as
    they are, and keeps the number of cases of its own. *)
Theorem run_tests_keeps_other_scenarios σ (key : type_index) :
  key ≠ ScenarioName →
  registry (run_tests elapsed ScenarioName σ).1 !! key = registry σ !! key
  ∧ length (getAllTests ScenarioName (registry (run_tests elapsed ScenarioName σ).1))
    = length (getAllTests ScenarioName (registry σ)).
Proof.
  intros Hne. rewrite run_tests_eq.
  set (σ0 := set_registry (<[ScenarioName := tests_of σ]> (registry σ)) σ).
  destruct (run_cases_frame elapsed ScenarioName (tests_of σ) 0 σ0)
    as (_ & _ & Hlen & _ & Hk).
  assert (H0 : tests_of σ0 = tests_of σ) by apply lookup_total_insert_eq.
  assert (Hreg : registry (run_cases elapsed ScenarioName 0 (tests_of σ) σ0).1 !! key
                 = registry σ !! key)
    by (rewrite (Hk key Hne); by apply lookup_insert_ne).
  unfold getAllTests. rewrite H0 in Hlen.
  by destruct (run_cases _ _ _ _ _) as [σ1 [[] | e]].
Qed.

(** [run] changes the outcome of a test, never what was registered:
    the label, the class, the procedure and the reason for skipping
    stay; a [SkippedTest] ends [SKIPPED] and a [Test] never does. *)
Lemma run_keeps_registration (w : W) t :
  let t' := (run elapsed (w, t)).1.2 in
  label_ t' = label_ t ∧ dynamic_type t' = dynamic_type t
  ∧ test_holder_ t' = test_holder_ t ∧ skipped_reason_ t' = skipped_reason_ t
  ∧ (getStatus t' = SKIPPED ↔ dynamic_type t = class_SkippedTest).
Proof.
  cbv zeta. unfold run. cbn [snd]. destruct (dynamic_type t) eqn:Hdyn.
  - rewrite Test_run_private_eq.
    destruct (test_holder_ t w) as [w' [[] | e]]; cbn; [by rewrite Hdyn |].
    destruct (handles GenericTestFailure (type_of e)); [cbn; by rewrite Hdyn |].
    destruct (handles std_exception (type_of e)); cbn; by rewrite Hdyn.
  - cbn. by rewrite Hdyn.
Qed.

(** The loop, object by object.  With [k] cases filed and [kr] cases
    run ([kr] is [k], or [k + 1] when an observer threw during the
    last one): the objects at the positions of the cases run are what
    [run] left of the registered ones, all others are untouched; the
    vectors grew by the positions filed; and the durations of the
    cases run were added, in order, to the sum. *)
Lemma run_cases_objects ts i σ :
  drop i (tests_of σ) = ts →
  let res := run_cases elapsed ScenarioName i ts σ in
  ∃ k kr, k ≤ kr ∧ kr ≤ length ts
    ∧ (res.2 = Val tt → k = length ts ∧ kr = k)
    ∧ (∀ e, res.2 = Exc e → kr = S k)
    ∧ (∀ j, j < i ∨ i + kr ≤ j → tests_of res.1 !! j = tests_of σ !! j)
    ∧ (∀ j, i ≤ j < i + kr →
         ∃ t (w : W), tests_of σ !! j = Some t
                      ∧ tests_of res.1 !! j = Some (run elapsed (w, t)).1.2)
    ∧ (∀ st, st ≠ NONE →
         bucket st (this res.1) =
           bucket st (this σ) ++
           List.filter (λ j, Status_eqb (status_at (tests_of res.1) j) st) (seq i k))
    ∧ exec_time_ms_accumulator_ (this res.1) =
        fold_left Duration_add (getExecTimeMs <$> take kr (drop i (tests_of res.1)))
          (exec_time_ms_accumulator_ (this σ)).
Proof.
  revert i σ. induction ts as [| t ts IH]; intros i σ Hdrop.
  - exists 0, 0. cbn [run_cases ret fst snd length seq List.filter take].
    split; [done | split; [done | split; [done | split; [discriminate |]]]].
    split; [done | split; [intros; lia |]]. split; [| done].
    intros st _. by rewrite app_nil_r.
  - cbv zeta. rewrite run_cases_cons.
    apply drop_cons_inv in Hdrop as (Hi & Hlen & Hrest).
    destruct (run_case_spec elapsed ScenarioName i t σ) as (k0 & Hreg & _ & _ & Hthis).
    set (t' := (run elapsed (world σ, t)).1.2) in *.
    destruct (run_case elapsed ScenarioName i t σ) as [σ1 r].
    cbn [fst snd] in Hreg, Hthis.
    assert (Hl : tests_of σ1 = <[i := t']> (tests_of σ))
      by (rewrite Hreg; apply lookup_total_insert_eq).
    assert (Hli : tests_of σ1 !! i = Some t')
      by (rewrite Hl; by apply list_lookup_insert_eq).
    assert (Hlne : ∀ j, j ≠ i → tests_of σ1 !! j = tests_of σ !! j)
      by (intros j Hj; rewrite Hl; by apply list_lookup_insert_ne).
    destruct r as [[] | e]; cbn [fst snd].
    + assert (Hdrop1 : drop (S i) (tests_of σ1) = ts)
        by (rewrite Hl, drop_insert_lt by lia; done).
      destruct (IH (S i) σ1 Hdrop1)
        as (k & kr & Hk & Hkr & Hval & Hexc & Hsame & Hran & Hb & Hacc).
      set (σ' := (run_cases elapsed ScenarioName (S i) ts σ1).1) in *.
      assert (Hfin : tests_of σ' !! i = Some t') by (rewrite Hsame by lia; done).
      assert (Hati : status_at (tests_of σ') i = getStatus t')
        by (unfold status_at; by rewrite Hfin).
      exists (S k), (S kr). cbn [length].
      split; [lia | split; [lia | split; [| split]]].
      * intros Hr. destruct (Hval Hr) as [-> ->]. done.
      * intros e He. by rewrite (Hexc e He).
      * split; [| split; [| split]].
        -- intros j Hj. rewrite Hsame by lia. apply Hlne. lia.
        -- intros j Hj. destruct (decide (j = i)) as [-> | Hne].
           ++ exists t, (world σ). by rewrite Hfin.
           ++ destruct (Hran j ltac:(lia)) as (t0 & w & H1 & H2).
              exists t0, w. by rewrite <- Hlne.
        -- intros st Hne. rewrite (Hb st Hne), Hthis, file_bucket, accumulate_bucket by done.
           cbn [seq List.filter]. rewrite Hati, <- app_assoc.
           by destruct (Status_eqb (getStatus t') st).
        -- rewrite Hacc, Hthis, (drop_S _ _ _ Hfin).
           destruct (file_frame i (getStatus t') (accumulate (getExecTimeMs t') (this σ)))
             as (_ & _ & ->).
           by rewrite firstn_cons, fmap_cons.
    + exists 0, 1. cbn [length seq List.filter].
      split; [lia | split; [lia | split; [discriminate | split; [done |]]]].
      split; [| split; [| split]].
      * intros j Hj. apply Hlne. lia.
      * intros j Hj. assert (j = i) as -> by lia. by exists t, (world σ).
      * intros st _. by rewrite Hthis, accumulate_bucket, app_nil_r.
      * rewrite Hthis, (drop_S _ _ _ Hli). by rewrite firstn_cons, take_0.
Qed.

Lemma run_tests_objects σ :
  let res := run_tests elapsed ScenarioName σ in
  let n := length (tests_of σ) in
  ∃ k kr, k ≤ kr ∧ kr ≤ n
    ∧ (res.2 = Val tt → k = n ∧ kr = n)
    ∧ (∀ e, res.2 = Exc e → kr = S k)
    ∧ length (tests_of res.1) = n
    ∧ (∀ j, kr ≤ j → tests_of res.1 !! j = tests_of σ !! j)
    ∧ (∀ j, j < kr →
         ∃ t (w : W), tests_of σ !! j = Some t
                      ∧ tests_of res.1 !! j = Some (run elapsed (w, t)).1.2)
    ∧ (∀ st, st ≠ NONE →
         bucket st (this res.1) =
           bucket st (this σ) ++
           List.filter (λ j, Status_eqb (status_at (tests_of res.1) j) st) (seq 0 k))
    ∧ exec_time_ms_accumulator_ (this res.1) =
        fold_left Duration_add (getExecTimeMs <$> take kr (tests_of res.1))
          (exec_time_ms_accumulator_ (this σ)).
Proof.
  cbv zeta. rewrite run_tests_eq.
  set (σ0 := set_registry (<[ScenarioName := tests_of σ]> (registry σ)) σ).
  assert (H0 : tests_of σ0 = tests_of σ) by apply lookup_total_insert_eq.
  assert (Hdrop : drop 0 (tests_of σ0) = tests_of σ) by (by rewrite H0).
  destruct (run_cases_objects (tests_of σ) 0 σ0 Hdrop)
    as (k & kr & Hk & Hkr & Hval & Hexc & Hsame & Hran & Hb & Hacc).
  destruct (run_cases_frame elapsed ScenarioName (tests_of σ) 0 σ0) as (_ & _ & Hlen & _).
  rewrite H0 in Hlen, Hsame, Hran. cbn [drop] in Hacc.
  change (this σ0) with (this σ) in Hb, Hacc.
  exists k, kr.
  destruct (run_cases elapsed ScenarioName 0 (tests_of σ) σ0) as [σ1 [[] | e]];
    cbn [fst snd this registry set_this] in *.
  - split; [done | split; [done | split; [| split; [discriminate |]]]].
    { intros _. by destruct (Hval eq_refl) as [-> ->]. }
    split; [done | split; [intros j Hj; apply Hsame; lia |]].
    split; [intros j Hj; apply Hran; lia |].
    split; [intros st Hne; rewrite <- (Hb st Hne); by destruct st | done].
  - split; [done | split; [done | split; [discriminate | split; [done |]]]].
    split; [done | split; [intros j Hj; apply Hsame; lia |]].
    split; [intros j Hj; apply Hran; lia | done].
Qed.

(** X12: When an observer throws during the case at position [k],
    [run_tests] lets the exception through and stops there: the flag
    is as it was, the cases before [k] are filed, the case at [k] has
    been run and its duration added to the sum but its reference is
    in no vector, and the cases after [k] are untouched. *)
Theorem run_tests_interrupted_by_observer σ (e : Exn) :
  (run_tests elapsed ScenarioName σ).2 = Exc e →
  let σ' := (run_tests elapsed ScenarioName σ).1 in
  let tests := getAllTests ScenarioName (registry σ) in
  let tests' := getAllTests ScenarioName (registry σ') in
  ∃ k, k < length tests
    ∧ run_ (this σ') = run_ (this σ)
    ∧ (∀ st, st ≠ NONE →
         bucket st (this σ') =
           bucket st (this σ) ++
           List.filter (λ j, Status_eqb (status_at tests' j) st) (seq 0 k))
    ∧ (∃ t (w : W), tests !! k = Some t ∧ tests' !! k = Some (run elapsed (w, t)).1.2)
    ∧ status_at tests' k ≠ NONE
    ∧ (∀ j, k < j → tests' !! j = tests !! j)
    ∧ exec_time_ms_accumulator_ (this σ') =
        fold_left Duration_add (getExecTimeMs <$> take (S k) tests')
          (exec_time_ms_accumulator_ (this σ)).
Proof.
  intros He. cbv zeta. unfold getAllTests.
  destruct (run_tests_objects σ)
    as (k & kr & Hk & Hkr & _ & Hexc & _ & Hsame & Hran & Hb & Hacc).
  cbv zeta in *. specialize (Hexc e He). subst kr.
  assert (Hrun : run_ (this (run_tests elapsed ScenarioName σ).1) = run_ (this σ)).
  { rewrite run_tests_eq in He |- *.
    destruct (run_cases_frame elapsed ScenarioName (tests_of σ) 0
                (set_registry (<[ScenarioName := tests_of σ]> (registry σ)) σ))
      as (_ & Hr & _).
    by destruct (run_cases _ _ _ _ _) as [σ1 [[] | e']]. }
  destruct (Hran k ltac:(lia)) as (t & w & Ht & Ht').
  exists k. split; [lia | split; [done | split; [done | split; [by exists t, w |]]]].
  split; [unfold status_at; rewrite Ht'; apply run_status |].
  split; [intros j Hj; apply Hsame; lia | done].
Qed.

(** X13: Whatever the outcome of the run, the registered data of every
    case is kept: after [run_tests] the list of the scenario holds the
    same labels, classes and reasons for skipping, in the same order. *)
Theorem run_tests_keeps_registered_data σ :
  let tests := getAllTests ScenarioName (registry σ) in
  let tests' := getAllTests ScenarioName (registry (run_tests elapsed ScenarioName σ).1) in
  label_ <$> tests' = label_ <$> tests
  ∧ dynamic_type <$> tests' = dynamic_type <$> tests
  ∧ skipped_reason_ <$> tests' = skipped_reason_ <$> tests.
Proof.
  cbv zeta. unfold getAllTests.
  destruct (run_tests_objects σ) as (k & kr & _ & _ & _ & _ & _ & Hsame & Hran & _).
  cbv zeta in *.
  assert (Hobj : ∀ j, (∃ t (w : W), tests_of σ !! j = Some t
                      ∧ tests_of (run_tests elapsed ScenarioName σ).1 !! j
                        = Some (run elapsed (w, t)).1.2)
                 ∨ tests_of (run_tests elapsed ScenarioName σ).1 !! j = tests_of σ !! j).
  { intros j. destruct (decide (j < kr)); [left; by apply Hran | right; apply Hsame; lia]. }
  split; [| split]; apply list_eq; intros j; rewrite !list_lookup_fmap;
    (destruct (Hobj j) as [(t & w & -> & ->) | ->]; [| done]);
    destruct (run_keeps_registration w t) as (H1 & H2 & _ & H4 & _); cbn;
    by rewrite ?H1, ?H2, ?H4.
Qed.

(** X14: After one complete run of a scenario that had not been run, the
    vector of skipped tests holds exactly the positions of the cases
    registered as [SkippedTest], in order. *)
Theorem skipped_vector_is_the_skipped_class σ :
  Pending (this σ) →
  (run_tests elapsed ScenarioName σ).2 = Val tt →
  let tests := getAllTests ScenarioName (registry σ) in
  getSkippedTests (this (run_tests elapsed ScenarioName σ).1) =
    List.filter
      (λ j, match tests !! j with
            | Some {| dynamic_type := class_SkippedTest |} => true
            | _ => false
            end)
      (seq 0 (length tests)).
Proof.
  intros Hp Hval. cbv zeta. unfold getAllTests, getSkippedTests.
  destruct (Pending_inv _ Hp) as (_ & _ & Hempty & _).
  destruct (run_tests_objects σ) as (k & kr & _ & _ & Hv & _ & _ & _ & Hran & Hb & _).
  cbv zeta in *. destruct (Hv Hval) as [-> ->].
  specialize (Hb SKIPPED ltac:(done)). rewrite Hempty in Hb. cbn [bucket app] in Hb.
  rewrite Hb. apply List.filter_ext_in. intros j Hj.
  apply List.in_seq in Hj.
  destruct (Hran j ltac:(lia)) as (t & w & Ht & Ht').
  unfold status_at. rewrite Ht, Ht'.
  destruct (run_keeps_registration w t) as (_ & _ & _ & _ & Hsk).
  cbv zeta in Hsk. destruct t as [[] ? ? ? ? ? ? ?]; cbn [dynamic_type] in *.
  - destruct (getStatus (run elapsed (w, _)).1.2); try done.
    discriminate (proj1 Hsk eq_refl).
  - by rewrite (proj2 Hsk eq_refl).
Qed.

(** X15: After a run that comes to its end, the sum kept by the manager is
    the sum it held before with the durations of the cases added one
    after the other, in the order of the list; it is what the accessor
    of the total duration returns. *)
Theorem total_duration_is_sum_of_cases σ :
  (run_tests elapsed ScenarioName σ).2 = Val tt →
  let σ' := (run_tests elapsed ScenarioName σ).1 in
  getAllTestsExecTimeMs (this σ') =
    fold_left Duration_add (getExecTimeMs <$> getAllTests ScenarioName (registry σ'))
      (exec_time_ms_accumulator_ (this σ)).
Proof.
  intros Hval. cbv zeta. unfold getAllTests, getAllTestsExecTimeMs.
  destruct (run_tests_objects σ) as (k & kr & _ & _ & Hv & _ & Hlen & _ & _ & _ & Hacc).
  cbv zeta in *. destruct (Hv Hval) as [-> ->].
  rewrite <- Hlen, firstn_all in Hacc. rewrite Hacc.
  assert (Hrun : run_ (this (run_tests elapsed ScenarioName σ).1) = true).
  { rewrite run_tests_eq in Hval |- *.
    by destruct (run_cases _ _ _ _ _) as [σ1 [[] | e]]. }
  by rewrite Hrun.
Qed.

(** X16: The count of registered cases is read from the registry when it is
    asked for, the four vectors are filled by the run: a case
    registered after a complete run is counted at once as registered
    though no vector holds it, so the four counts no longer add up to
    the total. *)
Theorem registering_after_run_breaks_total σ t :
  Pending (this σ) →
  (run_tests elapsed ScenarioName σ).2 = Val tt →
  let σ' := (run_tests elapsed ScenarioName σ).1 in
  let m := this σ' in
  let n := length (getAllTests ScenarioName (registry σ)) in
  getPassedCount m + getFailedCount m + getWithErrorCount m + getSkippedCount m = n
  ∧ getAllTestsCount ScenarioName m (push_back ScenarioName t (registry σ')) = S n.
Proof.
  intros Hp Hval. cbv zeta. unfold getAllTests.
  destruct (Pending_inv _ Hp) as (_ & _ & Hempty & _).
  destruct (run_tests_objects σ) as (k & kr & _ & _ & Hv & _ & Hlen & _ & Hran & Hb & _).
  cbv zeta in *. destruct (Hv Hval) as [-> ->].
  assert (Hrun : run_ (this (run_tests elapsed ScenarioName σ).1) = true).
  { rewrite run_tests_eq in Hval |- *.
    by destruct (run_cases _ _ _ _ _) as [σ1 [[] | e]]. }
  set (σ' := (run_tests elapsed ScenarioName σ).1) in *.
  unfold getPassedCount, getFailedCount, getWithErrorCount, getSkippedCount,
    getAllTestsCount, push_back. rewrite Hrun, lookup_total_insert_eq, length_app, Hlen.
  split; [| cbn; lia].
  assert (HP := Hb PASSED ltac:(done)). assert (HF := Hb FAILED ltac:(done)).
  assert (HE := Hb ERROR ltac:(done)). assert (HS := Hb SKIPPED ltac:(done)).
  rewrite Hempty in HP, HF, HE, HS. cbn [bucket app] in HP, HF, HE, HS.
  assert (Hperm := filter_status_partition (status_at (tests_of σ'))
                     (seq 0 (length (tests_of σ)))).
  rewrite <- HP, <- HF, <- HE, <- HS in Hperm.
  assert (Hnone : ∀ j, j ∈ seq 0 (length (tests_of σ)) → status_at (tests_of σ') j ≠ NONE).
  { intros j Hj. apply elem_of_seq in Hj.
    destruct (Hran j ltac:(lia)) as (t0 & w & _ & Ht'). unfold status_at. rewrite Ht'.
    apply run_status. }
  apply Hperm, Permutation_length in Hnone.
  rewrite !length_app, length_seq in Hnone. lia.
Qed.

(** X17: Registering a case touches the list of its scenario only, makes
    the list when the scenario has none, and leaves the cases already
    registered at their positions. *)
Theorem push_back_keeps_positions (reg : gmap type_index (list (Test (W := W)))) t :
  (∀ key, key ≠ ScenarioName → push_back ScenarioName t reg !! key = reg !! key)
  ∧ (reg !! ScenarioName = None → push_back ScenarioName t reg !! ScenarioName = Some [t])
  ∧ (∀ j t0, getAllTests ScenarioName reg !! j = Some t0 →
       getAllTests ScenarioName (push_back ScenarioName t reg) !! j = Some t0)
  ∧ getAllTests ScenarioName (push_back ScenarioName t reg)
      !! length (getAllTests ScenarioName reg) = Some t.
Proof.
  unfold push_back, getAllTests. split; [| split; [| split]].
  - intros key Hne. by apply lookup_insert_ne.
  - intros Hnone. by rewrite lookup_insert_eq, lookup_total_alt, Hnone.
  - intros j t0 Hj. rewrite lookup_total_insert_eq. by apply lookup_app_l_Some.
  - rewrite lookup_total_insert_eq. by apply list_lookup_middle.
Qed.

(** X18: The feeder of [register_scenario] makes the entry of the scenario
    when there is none and says so; on a scenario that already has an
    entry it changes nothing: the cases registered are kept. *)
Theorem register_scenario_feeder_keeps_cases (reg : gmap type_index (list (Test (W := W)))) :
  let reg' := (register_scenario_feeder ScenarioName reg).1 in
  let inserted := (register_scenario_feeder ScenarioName reg).2 in
  getAllTests ScenarioName reg' = getAllTests ScenarioName reg
  ∧ is_Some (reg' !! ScenarioName)
  ∧ (inserted = true ↔ reg !! ScenarioName = None)
  ∧ (inserted = false → reg' = reg)
  ∧ (∀ key, key ≠ ScenarioName → reg' !! key = reg !! key).
Proof.
  cbv zeta. unfold register_scenario_feeder, getAllTests.
  destruct (reg !! ScenarioName) as [l |] eqn:Hl; cbn [fst snd].
  - rewrite Hl. split; [done | split; [by eexists | split; [done | done]]].
  - rewrite lookup_total_insert_eq, lookup_total_alt, Hl, lookup_insert_eq.
    split; [done | split; [by eexists | split; [done | split; [done |]]]].
    intros key Hne. by apply lookup_insert_ne.
Qed.
End MoreRunnerProperties.

(** ** The set of observers *)

Section MoreObserverProperties.
Context {W : Type}.
Implicit Types (o : IRegistryObserver (W := W)) (l : list (IRegistryObserver (W := W)))
  (m : RegistryManager (W := W)).

Lemma set_insert_present o l :
  set_ok l = true → addr o ∈ addr <$> l → set_insert o l = l.
Proof.
  induction l as [| x l IH]; intros Hok Hin; [by apply elem_of_nil in Hin |].
  rewrite fmap_cons in Hin. cbn [set_insert].
  destruct (addr o <? addr x)%N eqn:Hlt.
  - apply N.ltb_lt in Hlt. apply elem_of_cons in Hin as [Heq | Hin]; [lia |].
    pose proof (set_ok_lower_bound l x (addr o) Hok Hin). lia.
  - destruct (addr o =? addr x)%N eqn:Heq; [done |].
    apply N.eqb_neq in Heq. apply elem_of_cons in Hin as [Hin | Hin]; [done |].
    by rewrite (IH (set_ok_tail _ _ Hok) Hin).
Qed.

Lemma set_erase_absent o l : addr o ∉ addr <$> l → set_erase o l = l.
Proof.
  unfold set_erase. induction l as [| x l IH]; intros Hnotin; [done |].
  rewrite fmap_cons in Hnotin. apply not_elem_of_cons in Hnotin as [Hne Hnotin].
  cbn [List.filter]. assert (Hx : (addr x =? addr o)%N = false) by (by apply N.eqb_neq).
  rewrite Hx. cbn [negb]. by rewrite (IH Hnotin).
Qed.

Lemma set_erase_insert o l :
  addr o ∉ addr <$> l → set_erase o (set_insert o l) = l.
Proof.
  induction l as [| x l IH]; intros Hnotin.
  - unfold set_erase. cbn. by rewrite N.eqb_refl.
  - pose proof (set_erase_absent o (x :: l) Hnotin) as Habs.
    rewrite fmap_cons in Hnotin. apply not_elem_of_cons in Hnotin as [Hne Hnotin].
    cbn [set_insert]. destruct (addr o <? addr x)%N.
    + unfold set_erase in *. cbn [List.filter] in *. rewrite N.eqb_refl. cbn [negb].
      exact Habs.
    + assert (Ho : (addr o =? addr x)%N = false) by (by apply N.eqb_neq).
      rewrite Ho. unfold set_erase in *. cbn [List.filter].
      assert (Hx : (addr x =? addr o)%N = false) by (apply N.eqb_neq; congruence).
      rewrite Hx. cbn [negb]. by rewrite (IH Hnotin).
Qed.

Lemma set_insert_comm o1 o2 l :
  addr o1 ≠ addr o2 →
  set_insert o1 (set_insert o2 l) = set_insert o2 (set_insert o1 l).
Proof.
  intros Hne. induction l as [| x l IH].
  - cbn [set_insert].
    destruct (addr o1 <? addr o2)%N eqn:H12, (addr o2 <? addr o1)%N eqn:H21,
      (addr o1 =? addr o2)%N eqn:E12, (addr o2 =? addr o1)%N eqn:E21;
      try apply N.ltb_lt in H12; try apply N.ltb_lt in H21;
      try apply N.ltb_ge in H12; try apply N.ltb_ge in H21;
      try apply N.eqb_eq in E12; try apply N.eqb_eq in E21;
      try apply N.eqb_neq in E12; try apply N.eqb_neq in E21;
      (done || lia).
  - destruct (addr o2 <? addr x)%N eqn:H2x, (addr o1 <? addr x)%N eqn:H1x,
      (addr o2 =? addr x)%N eqn:E2x, (addr o1 =? addr x)%N eqn:E1x,
      (addr o1 <? addr o2)%N eqn:H12, (addr o2 <? addr o1)%N eqn:H21,
      (addr o1 =? addr o2)%N eqn:E12, (addr o2 =? addr o1)%N eqn:E21;
      do 3 (cbn [set_insert]; rewrite ?H2x, ?H1x, ?E2x, ?E1x, ?H12, ?H21, ?E12, ?E21);
      try done; try (by rewrite IH);
      try apply N.ltb_lt in H12; try apply N.ltb_lt in H21;
      try apply N.ltb_ge in H12; try apply N.ltb_ge in H21;
      try apply N.ltb_lt in H1x; try apply N.ltb_lt in H2x;
      try apply N.ltb_ge in H1x; try apply N.ltb_ge in H2x;
      try apply N.eqb_eq in E12; try apply N.eqb_eq in E21;
      try apply N.eqb_neq in E12; try apply N.eqb_neq in E21;
      try apply N.eqb_eq in E1x; try apply N.eqb_eq in E2x;
      try apply N.eqb_neq in E1x; try apply N.eqb_neq in E2x;
      exfalso; lia.
Qed.

Lemma set_list_observers_same m : set_list_observers_ (list_observers_ m) m = m.
Proof. by destruct m. Qed.

(** X19: Attaching a handle whose address is already in the set changes
    nothing: the handle attached first stays, and attaching the same
    handle twice is attaching it once. *)
Theorem addObserver_already_attached o m :
  set_ok (list_observers_ m) = true →
  (addr o ∈ addr <$> list_observers_ m → addObserver o m = m)
  ∧ addObserver o (addObserver o m) = addObserver o m.
Proof.
  intros Hok.
  assert (H1 : ∀ m', set_ok (list_observers_ m') = true →
                addr o ∈ addr <$> list_observers_ m' → addObserver o m' = m').
  { intros m' Hok' Hin. unfold addObserver. rewrite set_insert_present by done.
    apply set_list_observers_same. }
  split; [by apply H1 |]. apply H1.
  - cbn. by apply set_insert_ok.
  - cbn. apply set_insert_addrs. by left.
Qed.

(** X20: Detaching a handle that was attached to a set that did not hold
    its address gives the manager back as it was; detaching a handle
    that is not attached changes nothing. *)
Theorem removeObserver_undoes_addObserver o m :
  addr o ∉ addr <$> list_observers_ m →
  removeObserver o (addObserver o m) = m ∧ removeObserver o m = m.
Proof.
  intros Hnotin. unfold removeObserver, addObserver.
  cbn [list_observers_ set_list_observers_].
  rewrite set_erase_insert, set_erase_absent by done.
  by destruct m.
Qed.

(** X21: The order in which two different handles are attached does not
    matter. *)
Theorem addObserver_commutes o1 o2 m :
  addr o1 ≠ addr o2 →
  addObserver o1 (addObserver o2 m) = addObserver o2 (addObserver o1 m).
Proof.
  intros Hne. destruct m as [l ? ? ? ? ? ?]. unfold addObserver, set_list_observers_.
  cbn [list_observers_ run_ exec_time_ms_accumulator_ tests_passed_ tests_failed_
         tests_skipped_ tests_with_error_].
  by rewrite (set_insert_comm o1 o2 l Hne).
Qed.
End MoreObserverProperties.

(** ** The report *)

Lemma string_drop_append (a b : string) : string_drop (String.length a) (a +:+ b) = b.
Proof. induction a as [| x a IH]; [by destruct b | exact IH]. Qed.

Lemma length_append (a b : string) :
  String.length (a +:+ b) = String.length a + String.length b.
Proof.
  induction a as [| x a IH]; [done |].
  change (Datatypes.S (String.length (a +:+ b))
          = Datatypes.S (String.length a + String.length b)).
  by rewrite IH.
Qed.

(** [find] returns [npos] or a position inside the text. *)
Lemma find_from_range (s : string) (c : Ascii.ascii) (pos : N) :
  find_from s c pos = npos
  ∨ (pos ≤ find_from s c pos < pos + N.of_nat (String.length s))%N.
Proof.
  revert pos. induction s as [| x s IH]; intros pos; [by left |].
  cbn [find_from String.length]. destruct (Ascii.eqb x c); [right; lia |].
  destruct (IH (pos + 1)%N) as [-> | H]; [by left | right; lia].
Qed.

Lemma find_from_first (a b : string) (c : Ascii.ascii) (pos : N) :
  find_from a c pos = npos →
  (pos + N.of_nat (String.length a) < npos)%N →
  find_from (a +:+ String c b) c pos = (pos + N.of_nat (String.length a))%N.
Proof.
  revert pos. induction a as [| x a IH]; intros pos Hnone Hlen.
  - change (EmptyString +:+ String c b) with (String c b). cbn [find_from String.length].
    rewrite Ascii.eqb_refl. lia.
  - change (String x a +:+ String c b) with (String x (a +:+ String c b)).
    cbn [find_from String.length] in *. destruct (Ascii.eqb x c); [lia |].
    rewrite IH by (done || lia). lia.
Qed.

Section ReportProperties.
Context {S : Type}.

(** X22: The name shown for a scenario is the text behind the first space
    of the type name, and the whole name when it has no space: there
    [find] returns [npos], to which adding one gives zero.
    [display_name] never throws. *)
Theorem display_name_after_first_space (test_name : string) (s : S) :
  (N.of_nat (String.length test_name) < npos)%N →
  (∃ shown, display_name test_name s = (s, Val shown))
  ∧ (find test_name (Ascii.ascii_of_nat 32) = npos →
     display_name test_name s = (s, Val test_name))
  ∧ (∀ a b, test_name = a +:+ String (Ascii.ascii_of_nat 32) b →
       find a (Ascii.ascii_of_nat 32) = npos →
       display_name test_name s = (s, Val b)).
Proof.
  intros Hlen. unfold display_name, substr, size_t_add, find.
  split; [| split].
  - destruct (find_from_range test_name (Ascii.ascii_of_nat 32) 0) as [-> | H].
    + change ((npos + 1) mod 2 ^ 64)%N with 0%N.
      replace (N.of_nat (String.length test_name) <? 0)%N with false
        by (symmetry; apply N.ltb_ge; lia).
      by eexists.
    + rewrite N.mod_small by (unfold npos in Hlen; lia).
      replace (N.of_nat (String.length test_name) <? _ + 1)%N with false
        by (symmetry; apply N.ltb_ge; lia).
      by eexists.
  - intros ->. change ((npos + 1) mod 2 ^ 64)%N with 0%N.
    replace (N.of_nat (String.length test_name) <? 0)%N with false
      by (symmetry; apply N.ltb_ge; lia).
    done.
  - intros a b -> Ha. rewrite length_append in Hlen |- *. cbn [String.length] in Hlen |- *.
    rewrite (find_from_first a b _ 0 Ha) by lia.
    rewrite N.mod_small by (unfold npos in Hlen; lia).
    replace (_ <? _)%N with false by (symmetry; apply N.ltb_ge; lia).
    replace (N.to_nat (0 + N.of_nat (String.length a) + 1))
      with (String.length (a +:+ String (Ascii.ascii_of_nat 32) EmptyString))
      by (rewrite length_append; cbn [String.length]; lia).
    replace (a +:+ String (Ascii.ascii_of_nat 32) b)
      with ((a +:+ String (Ascii.ascii_of_nat 32) EmptyString) +:+ b)
      by (by rewrite append_assoc).
    by rewrite string_drop_append.
Qed.
End ReportProperties.

Section PrintProperties.
Context {W : Type}.
Variable ScenarioName : type_index.
Implicit Types (m : RegistryManager (W := W)) (reg : gmap type_index (list (Test (W := W))))
  (out : list ColoredPrintf).

Local Abbreviation header shown m :=
  {| pf_color := COLOR_CYAN;
     pf_format := "UNIT TEST SUMMARY [%s] [%f ms] : " +:+ endl;
     pf_args := [arg_text shown; arg_duration (getAllTestsExecTimeMs m)] |}.

(** The calls of [print], section by section. *)
Lemma print_eq test_name m reg verbose out :
  (N.of_nat (String.length test_name) < npos)%N →
  ∃ shown, display_name test_name out = (out, Val shown) ∧
    print ScenarioName test_name m reg verbose out =
      (out ++ [header shown m] ++
       (if Nat.ltb 0 (getPassedCount m)
        then count_line COLOR_GREEN "PASSED" (getPassedCount m)
               (getAllTestsCount ScenarioName m reg)
             :: (if verbose
                 then passed_line <$> referred ScenarioName reg (getPassedTests m)
                 else [])
        else []) ++
       (if Nat.ltb 0 (getFailedCount m)
        then count_line COLOR_RED "FAILED" (getFailedCount m)
               (getAllTestsCount ScenarioName m reg)
             :: ((λ t, message_line COLOR_RED t (getFailureReason t))
                   <$> referred ScenarioName reg (getFailedTests m))
        else []) ++
       (if Nat.ltb 0 (getSkippedCount m)
        then count_line COLOR_YELLOW "SKIPPED" (getSkippedCount m)
               (getAllTestsCount ScenarioName m reg)
             :: (if verbose
                 then (λ t, message_line COLOR_YELLOW t (getSkippedReason t))
                        <$> referred ScenarioName reg (getSkippedTests m)
                 else [])
        else []) ++
       (if Nat.ltb 0 (getWithErrorCount m)
        then count_line COLOR_PURPLE "ERRORS" (getWithErrorCount m)
               (getAllTestsCount ScenarioName m reg)
             :: ((λ t, message_line COLOR_PURPLE t (getError t))
                   <$> referred ScenarioName reg (getWithErrorTests m))
        else []),
       Val tt).
Proof.
  intros Hlen.
  destruct (display_name_after_first_space test_name out Hlen) as ((shown & Hshown) & _).
  exists shown. split; [done |].
  unfold print. unfold bind at 1. rewrite Hshown.
  unfold bind, modify, ret.
  destruct (Nat.ltb 0 (getPassedCount m)), (Nat.ltb 0 (getFailedCount m)),
    (Nat.ltb 0 (getSkippedCount m)), (Nat.ltb 0 (getWithErrorCount m)), verbose;
    cbn [app]; rewrite <- ?app_assoc, ?app_nil_r; cbn [app]; reflexivity.
Qed.

(** X23: Before a run has come to its end, the report is the summary line
    alone, with a total of zero, however many cases are registered and
    whatever the vectors hold. *)
Theorem print_before_completion test_name m reg verbose out :
  (N.of_nat (String.length test_name) < npos)%N →
  run_ m = false →
  ∃ shown, display_name test_name out = (out, Val shown) ∧
    print ScenarioName test_name m reg verbose out =
      (out ++ [ {| pf_color := COLOR_CYAN;
                   pf_format := "UNIT TEST SUMMARY [%s] [%f ms] : " +:+ endl;
                   pf_args := [arg_text shown; arg_duration Duration_zero] |} ],
       Val tt).
Proof.
  intros Hlen Hrun. destruct (print_eq test_name m reg verbose out Hlen) as (shown & Hs & ->).
  exists shown. split; [done |].
  unfold getPassedCount, getFailedCount, getSkippedCount, getWithErrorCount,
    getAllTestsExecTimeMs. rewrite Hrun. cbn [Nat.ltb Nat.leb app]. done.
Qed.

(** X24: Failed and errored cases are reported whether the report is
    verbose or not: the calls made in red and in purple are the same
    for both settings, and without [verbose] no call is made for a
    single passed or skipped case. *)
Theorem print_failures_whatever_verbose test_name m reg out :
  (N.of_nat (String.length test_name) < npos)%N →
  let is_failure (c : ColoredPrintf) :=
    match pf_color c with COLOR_RED | COLOR_PURPLE => true | _ => false end in
  let quiet := (print ScenarioName test_name m reg false out).1 in
  let loud := (print ScenarioName test_name m reg true out).1 in
  List.filter is_failure quiet = List.filter is_failure loud
  ∧ length quiet + (if Nat.ltb 0 (getPassedCount m)
                    then length (referred ScenarioName reg (getPassedTests m)) else 0)
                 + (if Nat.ltb 0 (getSkippedCount m)
                    then length (referred ScenarioName reg (getSkippedTests m)) else 0)
    = length loud.
Proof.
  intros Hlen. cbv zeta.
  destruct (print_eq test_name m reg false out Hlen) as (shown & Hs & ->).
  destruct (print_eq test_name m reg true out Hlen) as (shown' & Hs' & ->).
  rewrite Hs in Hs'. injection Hs' as <-. cbn [fst].
  assert (Hgreen : ∀ l : list (Test (W := W)),
            List.filter (λ c, match pf_color c with
                              | COLOR_RED | COLOR_PURPLE => true | _ => false end)
              (passed_line <$> l) = []) by (induction l; done).
  assert (Hyellow : ∀ l : list (Test (W := W)),
            List.filter (λ c, match pf_color c with
                              | COLOR_RED | COLOR_PURPLE => true | _ => false end)
              ((λ t, message_line COLOR_YELLOW t (getSkippedReason t)) <$> l) = [])
    by (induction l; done).
  split.
  - rewrite !List.filter_app.
    destruct (Nat.ltb 0 (getPassedCount m)), (Nat.ltb 0 (getSkippedCount m));
      cbn [List.filter pf_color count_line]; by rewrite ?Hgreen, ?Hyellow.
  - rewrite !length_app.
    destruct (Nat.ltb 0 (getPassedCount m)), (Nat.ltb 0 (getSkippedCount m));
      cbn [length]; rewrite ?length_fmap; lia.
Qed.
End PrintProperties.

(** * More runs of the sample scenario *)

Module MoreRuns.
Import Sample MoreSample.

(** The end-to-end case of the texts: "abc" against "ABC" fails with
    the case taken into account and passes with it ignored. *)
Lemma abc_against_ABC :
  (isEqualTo_cstr "abc" "ABC" false EmptyString LineInfo_default tt).2 ≠ Val Empty
  ∧ (isEqualTo_cstr "abc" "ABC" true EmptyString LineInfo_default tt).2 = Val Empty
  ∧ (isEqualTo_string "ABC" true EmptyString LineInfo_default "Abc").1 = "abc".
Proof. split; [vm_compute; discriminate | split; vm_compute; reflexivity]. Qed.

Lemma isEqualTo_cstr_ignoreCase_weaker_witness :
  (isEqualTo_cstr "abc" "abc" false EmptyString LineInfo_default tt).2 = Val Empty
  ∧ (isEqualTo_cstr "abc" "abc" true EmptyString LineInfo_default tt).2 = Val Empty.
Proof.
  split; [vm_compute; reflexivity |].
  apply (isEqualTo_cstr_ignoreCase_weaker (S := unit)). vm_compute; reflexivity.
Defined.

Lemma to_string_injective_witness :
  to_string PASSED = to_string PASSED ∧ PASSED = PASSED.
Proof. split; [reflexivity | apply to_string_injective; reflexivity]. Defined.

Lemma quiet_observers (o : IRegistryObserver (W := nat)) :
  o ∈ list_observers_ (this (machine manager)) →
  ∀ infos w, (update o infos w).2 = Val tt.
Proof.
  intros Ho infos w. cbn in Ho.
  apply elem_of_cons in Ho as [-> | Ho]; [reflexivity |].
  apply elem_of_cons in Ho as [-> | Ho]; [reflexivity |].
  by apply elem_of_nil in Ho.
Qed.

Lemma run_tests_returns_unless_observer_throws_witness :
  (∀ o, o ∈ list_observers_ (this (machine manager)) →
        ∀ infos w, (update o infos w).2 = Val tt)
  ∧ (run_tests elapsed Math (machine manager)).2 = Val tt
  ∧ run_ (this (run_tests elapsed Math (machine manager)).1) = true.
Proof.
  split; [exact quiet_observers |].
  apply (run_tests_returns_unless_observer_throws elapsed Math (machine manager)).
  exact quiet_observers.
Defined.

Lemma run_tests_without_cases_witness :
  let σ := {| world := 0; registry := ∅; this := manager; calls := [] |} in
  getAllTests Math (registry σ) = []
  ∧ (run_tests elapsed Math σ).2 = Val tt
  ∧ world (run_tests elapsed Math σ).1 = world σ
  ∧ calls (run_tests elapsed Math σ).1 = calls σ
  ∧ this (run_tests elapsed Math σ).1 = set_run_ true (this σ)
  ∧ registry (run_tests elapsed Math σ).1 = <[Math := []]> (registry σ)
  ∧ getAllTestsCount Math (this (run_tests elapsed Math σ).1)
      (registry (run_tests elapsed Math σ).1) = 0.
Proof.
  cbv zeta. split; [reflexivity |].
  apply (run_tests_without_cases elapsed Math
           {| world := 0; registry := ∅; this := manager; calls := [] |}).
  reflexivity.
Defined.

Lemma run_tests_keeps_other_scenarios_witness :
  Other ≠ Math
  ∧ registry (run_tests elapsed Math (machine manager)).1 !! Other
    = registry (machine manager) !! Other
  ∧ length (getAllTests Math (registry (run_tests elapsed Math (machine manager)).1))
    = length (getAllTests Math (registry (machine manager))).
Proof.
  split; [discriminate |].
  apply (run_tests_keeps_other_scenarios elapsed Math (machine manager) Other).
  discriminate.
Defined.

(** The observer throws at the second case: the first case is filed,
    the second has run and is in no vector, the last two are as
    registered. *)
Lemma interrupted_run :
  let σ := (run_tests elapsed Math (machine interrupted)).1 in
  (run_tests elapsed Math (machine interrupted)).2
    = Exc (Object std_runtime_error "observer")
  ∧ run_ (this σ) = false
  ∧ getStatus <$> registry σ !!! Math = [PASSED; FAILED; NONE; NONE]
  ∧ (tests_passed_ (this σ), tests_failed_ (this σ),
     tests_with_error_ (this σ), tests_skipped_ (this σ)) = ([0], [], [], [])
  ∧ world σ = 2.
Proof. vm_compute. done. Qed.

Lemma run_tests_interrupted_by_observer_witness :
  (run_tests elapsed Math (machine interrupted)).2
    = Exc (Object std_runtime_error "observer")
  ∧ let σ' := (run_tests elapsed Math (machine interrupted)).1 in
    let tests := getAllTests Math (registry (machine interrupted)) in
    let tests' := getAllTests Math (registry σ') in
    ∃ k, k < length tests
      ∧ run_ (this σ') = run_ (this (machine interrupted))
      ∧ (∀ st, st ≠ NONE →
           bucket st (this σ') =
             bucket st (this (machine interrupted)) ++
             List.filter (λ j, Status_eqb (status_at tests' j) st) (seq 0 k))
      ∧ (∃ t (w : nat), tests !! k = Some t ∧ tests' !! k = Some (run elapsed (w, t)).1.2)
      ∧ status_at tests' k ≠ NONE
      ∧ (∀ j, k < j → tests' !! j = tests !! j)
      ∧ exec_time_ms_accumulator_ (this σ') =
          fold_left Duration_add (getExecTimeMs <$> take (S k) tests')
            (exec_time_ms_accumulator_ (this (machine interrupted))).
Proof.
  assert (H : (run_tests elapsed Math (machine interrupted)).2
              = Exc (Object std_runtime_error "observer")) by (vm_compute; reflexivity).
  split; [exact H |].
  exact (run_tests_interrupted_by_observer elapsed Math (machine interrupted) _ H).
Defined.

Lemma skipped_vector_is_the_skipped_class_witness :
  Pending (this (machine manager))
  ∧ (run_tests elapsed Math (machine manager)).2 = Val tt
  ∧ getSkippedTests (this (run_tests elapsed Math (machine manager)).1) =
      List.filter
        (λ j, match getAllTests Math (registry (machine manager)) !! j with
              | Some {| dynamic_type := class_SkippedTest |} => true
              | _ => false
              end)
        (seq 0 (length (getAllTests Math (registry (machine manager))))).
Proof.
  split; [exact SampleRuns.manager_Pending |]. split; [vm_compute; reflexivity |].
  apply (skipped_vector_is_the_skipped_class elapsed Math (machine manager)).
  - exact SampleRuns.manager_Pending.
  - vm_compute; reflexivity.
Defined.

Lemma total_duration_is_sum_of_cases_witness :
  (run_tests elapsed Math (machine manager)).2 = Val tt
  ∧ getAllTestsExecTimeMs (this (run_tests elapsed Math (machine manager)).1) =
      fold_left Duration_add
        (getExecTimeMs <$> getAllTests Math (registry (run_tests elapsed Math
                                                          (machine manager)).1))
        (exec_time_ms_accumulator_ (this (machine manager))).
Proof.
  split; [vm_compute; reflexivity |].
  apply (total_duration_is_sum_of_cases elapsed Math (machine manager)).
  vm_compute; reflexivity.
Defined.

Lemma registering_after_run_breaks_total_witness :
  Pending (this (machine manager))
  ∧ (run_tests elapsed Math (machine manager)).2 = Val tt
  ∧ let σ' := (run_tests elapsed Math (machine manager)).1 in
    let m := this σ' in
    let n := length (getAllTests Math (registry (machine manager))) in
    getPassedCount m + getFailedCount m + getWithErrorCount m + getSkippedCount m = n
    ∧ getAllTestsCount Math m (push_back Math t_adds (registry σ')) = S n.
Proof.
  split; [exact SampleRuns.manager_Pending |]. split; [vm_compute; reflexivity |].
  apply (registering_after_run_breaks_total elapsed Math (machine manager) t_adds).
  - exact SampleRuns.manager_Pending.
  - vm_compute; reflexivity.
Defined.

Lemma addObserver_already_attached_witness :
  set_ok (list_observers_ manager) = true
  ∧ addr (thrower 3) ∈ addr <$> list_observers_ manager
  ∧ addObserver (thrower 3) manager = manager.
Proof.
  assert (Hin : addr (thrower 3) ∈ addr <$> list_observers_ manager) by (by left).
  split; [reflexivity |]. split; [exact Hin |].
  exact (proj1 (addObserver_already_attached (thrower 3) manager eq_refl) Hin).
Defined.

Lemma removeObserver_undoes_addObserver_witness :
  (addr (thrower 5) ∉ addr <$> list_observers_ manager)
  ∧ removeObserver (thrower 5) (addObserver (thrower 5) manager) = manager
  ∧ removeObserver (thrower 5) manager = manager.
Proof.
  assert (Hout : addr (thrower 5) ∉ addr <$> list_observers_ manager).
  { intros H. cbn in H. apply elem_of_cons in H as [H | H]; [discriminate |].
    apply elem_of_cons in H as [H | H]; [discriminate |]. by apply elem_of_nil in H. }
  split; [exact Hout |].
  exact (removeObserver_undoes_addObserver (thrower 5) manager Hout).
Defined.

Lemma addObserver_commutes_witness :
  addr (quiet 3) ≠ addr (quiet 7)
  ∧ addObserver (quiet 3) (addObserver (quiet 7) RegistryManager_ctor)
    = addObserver (quiet 7) (addObserver (quiet 3) RegistryManager_ctor).
Proof.
  split; [discriminate |]. apply addObserver_commutes. discriminate.
Defined.

Lemma display_name_after_first_space_witness :
  (N.of_nat (String.length type_name_Math) < npos)%N
  ∧ find "struct" (Ascii.ascii_of_nat 32) = npos
  ∧ display_name type_name_Math tt = (tt, Val "Math").
Proof.
  assert (Hlen : (N.of_nat (String.length type_name_Math) < npos)%N)
    by (vm_compute; reflexivity).
  split; [exact Hlen |]. split; [reflexivity |].
  exact (proj2 (proj2 (display_name_after_first_space type_name_Math tt Hlen))
           "struct" "Math" eq_refl eq_refl).
Defined.

Lemma print_before_completion_witness :
  (N.of_nat (String.length type_name_Math) < npos)%N
  ∧ run_ manager = false
  ∧ ∃ shown, display_name type_name_Math ([] : list ColoredPrintf) = ([], Val shown) ∧
      print Math type_name_Math manager registered true [] =
        ([] ++ [ {| pf_color := COLOR_CYAN;
                    pf_format := "UNIT TEST SUMMARY [%s] [%f ms] : " +:+ endl;
                    pf_args := [arg_text shown; arg_duration Duration_zero] |} ],
         Val tt).
Proof.
  assert (Hlen : (N.of_nat (String.length type_name_Math) < npos)%N)
    by (vm_compute; reflexivity).
  split; [exact Hlen |]. split; [reflexivity |].
  exact (print_before_completion Math type_name_Math manager registered true []
           Hlen eq_refl).
Defined.

Lemma print_failures_whatever_verbose_witness :
  (N.of_nat (String.length type_name_Math) < npos)%N
  ∧ let σ := run_scenario (machine manager) in
    let is_failure (c : ColoredPrintf) :=
      match pf_color c with COLOR_RED | COLOR_PURPLE => true | _ => false end in
    List.filter is_failure (print Math type_name_Math (this σ) (registry σ) false []).1
    = List.filter is_failure (print Math type_name_Math (this σ) (registry σ) true []).1.
Proof.
  assert (Hlen : (N.of_nat (String.length type_name_Math) < npos)%N)
    by (vm_compute; reflexivity).
  split; [exact Hlen |]. cbv zeta.
  exact (proj1 (print_failures_whatever_verbose Math type_name_Math
                  (this (run_scenario (machine manager)))
                  (registry (run_scenario (machine manager))) [] Hlen)).
Defined.

(** The report of the sample, not verbose: the summary, the four count
    lines and a line for the failed and for the errored case. *)
Lemma sample_report :
  let σ := run_scenario (machine manager) in
  let calls := (print Math type_name_Math (this σ) (registry σ) false []).1 in
  pf_color <$> calls
  = [COLOR_CYAN; COLOR_GREEN; COLOR_RED; COLOR_RED; COLOR_YELLOW; COLOR_PURPLE; COLOR_PURPLE]
  ∧ (calls !! 6 ≫= λ c, pf_args c !! 2) = Some (arg_text "out of domain").
Proof. vm_compute. done. Qed.
End MoreRuns.

(** * What an observer is shown *)

Section ObserverEffects.
Context {W A : Type}.
Variable elapsed : W → W → spec_float.
Variable ScenarioName : type_index.
(** The record an observer keeps in the outside state, and what it
    notes of a view it is shown. *)
Variable seen : W → list A.
Variable view : TestInfo (W := W) → A.
Implicit Types (σ : Machine (W := W)) (t : Test (W := W)) (ts : list (Test (W := W)))
  (o : IRegistryObserver (W := W)) (os : list (IRegistryObserver (W := W)))
  (infos : TestInfo (W := W)).

Local Abbreviation tests_of σ := (registry σ !!! ScenarioName).
Local Abbreviation keeps o' := (∀ infos (w : W), seen (update o' infos w).1 = seen w).
Local Abbreviation notes o := (∀ infos (w : W), seen (update o infos w).1 = seen w ++ [view infos]).

(** [run] on a test whose procedure leaves the record alone leaves it
    alone. *)
Lemma run_seen (w : W) t :
  (∀ w0, seen (test_holder_ t w0).1 = seen w0) →
  seen (run elapsed (w, t)).1.1 = seen w.
Proof.
  intros Hp. unfold run. cbn [snd]. destruct (dynamic_type t); [| done].
  rewrite Test_run_private_eq. specialize (Hp w).
  by destruct (test_holder_ t w) as [w' r].
Qed.

Lemma notify_each_seen_other os infos σ (a : N) :
  (∀ o', o' ∈ os → addr o' ≠ a → keeps o') →
  a ∉ addr <$> os →
  seen (world (notify_each os infos σ).1) = seen (world σ).
Proof.
  revert σ. induction os as [| o' os IH]; intros σ Hk Hout; [done |].
  rewrite fmap_cons in Hout. apply not_elem_of_cons in Hout as [Hne Hout].
  rewrite notify_each_cons. cbv zeta.
  pose proof (Hk o' (list_elem_of_here _ _) (not_eq_sym Hne) infos (world σ)) as Ho'.
  destruct (update o' infos (world σ)) as [w' [[] | e]]; cbn [fst] in Ho'.
  - rewrite IH; [done | | done]. intros o'' Hin. apply Hk. by right.
  - done.
Qed.

(** A call of [notify] that returns has called the [update] of an
    attached observer once: its record has one entry more. *)
Lemma notify_each_seen os infos σ o :
  NoDup (addr <$> os) → o ∈ os → notes o →
  (∀ o', o' ∈ os → addr o' ≠ addr o → keeps o') →
  (notify_each os infos σ).2 = Val tt →
  seen (world (notify_each os infos σ).1) = seen (world σ) ++ [view infos].
Proof.
  revert σ. induction os as [| o' os IH]; intros σ Hnd Hin Hn Hk;
    [by apply elem_of_nil in Hin |].
  rewrite fmap_cons in Hnd. apply NoDup_cons in Hnd as [Hfresh Hnd].
  rewrite notify_each_cons. cbv zeta.
  destruct (decide (addr o' = addr o)) as [Heq | Hne].
  - assert (o = o') as ->.
    { apply elem_of_cons in Hin as [-> | Hin]; [done |].
      exfalso. apply Hfresh. rewrite Heq. by apply list_elem_of_fmap_2. }
    pose proof (Hn infos (world σ)) as Ho.
    destruct (update o' infos (world σ)) as [w' [[] | e]]; cbn [fst] in Ho;
      [| discriminate].
    intros _. rewrite (notify_each_seen_other os infos _ (addr o')); [done | | done].
    intros o'' Hin'' Hne''. apply Hk; [by right | done].
  - assert (Hin' : o ∈ os).
    { apply elem_of_cons in Hin as [-> | Hin]; [done | done]. }
    pose proof (Hk o' (list_elem_of_here _ _) Hne infos (world σ)) as Ho'.
    destruct (update o' infos (world σ)) as [w' [[] | e]]; cbn [fst] in Ho';
      [| discriminate].
    intros Hr. rewrite (IH _ Hnd Hin' Hn); [by rewrite <- Ho' | | done].
    intros o'' Hin''. apply Hk. by right.
Qed.

(** The outside state after one turn of the loop is the one [notify]
    leaves, called on the state that [run] left. *)
Lemma run_case_world i t σ :
  ∃ σx, world σx = (run elapsed (world σ, t)).1.1
    ∧ world (run_case elapsed ScenarioName i t σ).1
      = world (notify_each (list_observers_ (this σ))
                 {| test_ref := i; test := (run elapsed (world σ, t)).1.2 |} σx).1
    ∧ ((run_case elapsed ScenarioName i t σ).2 = Val tt →
       (notify_each (list_observers_ (this σ))
          {| test_ref := i; test := (run elapsed (world σ, t)).1.2 |} σx).2 = Val tt).
Proof.
  rewrite run_case_eq. cbv zeta.
  exists (set_this (accumulate (getExecTimeMs (run elapsed (world σ, t)).1.2) (this σ))
            (set_world (run elapsed (world σ, t)).1.1
               (set_registry
                  (<[ScenarioName := <[i := (run elapsed (world σ, t)).1.2]> (tests_of σ)]>
                     (registry σ)) σ))).
  split; [reflexivity |].
  by destruct (notify_each _ _ _) as [σ3 [[] | e]].
Qed.

(** In a loop that comes to its end, an attached observer that notes
    what it is shown, in a record that nothing else writes, has noted
    the view of each case, in order, as [run] left the case. *)
Lemma run_cases_seen ts i σ o :
  drop i (tests_of σ) = ts →
  (∀ t, t ∈ ts → ∀ w, seen (test_holder_ t w).1 = seen w) →
  NoDup (addr <$> list_observers_ (this σ)) → o ∈ list_observers_ (this σ) → notes o →
  (∀ o', o' ∈ list_observers_ (this σ) → addr o' ≠ addr o → keeps o') →
  (run_cases elapsed ScenarioName i ts σ).2 = Val tt →
  seen (world (run_cases elapsed ScenarioName i ts σ).1) =
    seen (world σ) ++
    imap (λ j t', view {| test_ref := i + j; test := t' |})
      (drop i (tests_of (run_cases elapsed ScenarioName i ts σ).1)).
Proof.
  revert i σ. induction ts as [| t ts IH]; intros i σ Hdrop Hts Hnd Hin Hn Hk.
  - cbn [run_cases ret fst snd]. rewrite Hdrop. intros _. cbn. by rewrite app_nil_r.
  - rewrite run_cases_cons.
    apply drop_cons_inv in Hdrop as (Hi & Hlen & Hrest).
    destruct (run_case_spec elapsed ScenarioName i t σ) as (k0 & Hreg & _ & _ & Hthis).
    destruct (run_case_world i t σ) as (σx & Hx & Hw & Hr).
    set (t' := (run elapsed (world σ, t)).1.2) in *.
    destruct (run_case elapsed ScenarioName i t σ) as [σ1 r].
    cbn [fst snd] in Hreg, Hthis, Hw, Hr.
    destruct r as [[] | e]; [| discriminate].
    assert (Hl : tests_of σ1 = <[i := t']> (tests_of σ))
      by (rewrite Hreg; apply lookup_total_insert_eq).
    assert (Hdrop1 : drop (S i) (tests_of σ1) = ts)
      by (rewrite Hl, drop_insert_lt by lia; done).
    assert (Hos : list_observers_ (this σ1) = list_observers_ (this σ)).
    { rewrite Hthis.
      by destruct (file_frame i (getStatus t') (accumulate (getExecTimeMs t') (this σ)))
        as (-> & _). }
    assert (Hw1 : seen (world σ1) = seen (world σ) ++ [view {| test_ref := i; test := t' |}]).
    { rewrite Hw, (notify_each_seen _ _ σx o Hnd Hin Hn Hk (Hr eq_refl)), Hx.
      rewrite (run_seen (world σ) t); [done |]. apply Hts. left. }
    intros Hval.
    destruct (run_cases_frame elapsed ScenarioName ts (S i) σ1) as (_ & _ & _ & Hkeep & _).
    rewrite (IH (S i) σ1 Hdrop1); [| intros t0 Ht0; apply Hts; by right
                                   | by rewrite Hos | by rewrite Hos | done
                                   | by rewrite Hos | done].
    set (σ' := (run_cases elapsed ScenarioName (S i) ts σ1).1) in *.
    assert (Hfin : tests_of σ' !! i = Some t').
    { rewrite Hkeep by lia. rewrite Hl. by apply list_lookup_insert_eq. }
    rewrite Hw1, (drop_S _ _ _ Hfin), imap_cons, <- app_assoc. cbn [app].
    rewrite Nat.add_0_r. do 2 f_equal. apply imap_ext. intros j x _. cbn.
    by rewrite Nat.add_succ_r.
Qed.

(** C8, amended: in a run that comes to its end, that is when no
    observer throws from [update], the [update] of every observer
    attached to the scenario is called once for each registered case,
    skipped ones too, in the order of the cases, with the view of the
    case as [run] left it.  An attached observer that notes what it
    is shown, in a record that neither the procedures nor the other
    observers write, ends the run with the views of the cases at
    positions 0, 1, ..., n-1 behind what it held, and nothing else;
    among the calls made, those to its handle are for the same
    positions in the same order. *)
Theorem each_observer_updated_once_per_case σ o :
  set_ok (list_observers_ (this σ)) = true →
  o ∈ list_observers_ (this σ) →
  (∀ infos (w : W), seen (update o infos w).1 = seen w ++ [view infos]) →
  (∀ o', o' ∈ list_observers_ (this σ) → addr o' ≠ addr o →
         ∀ infos (w : W), seen (update o' infos w).1 = seen w) →
  (∀ t, t ∈ getAllTests ScenarioName (registry σ) →
        ∀ w, seen (test_holder_ t w).1 = seen w) →
  (run_tests elapsed ScenarioName σ).2 = Val tt →
  let σ' := (run_tests elapsed ScenarioName σ).1 in
  seen (world σ') =
    seen (world σ) ++
    imap (λ j t', view {| test_ref := j; test := t' |})
      (getAllTests ScenarioName (registry σ'))
  ∧ length (getAllTests ScenarioName (registry σ'))
    = length (getAllTests ScenarioName (registry σ))
  ∧ ∃ evs, calls σ' = calls σ ++ evs
      ∧ received (addr o) evs
        = seq 0 (length (getAllTests ScenarioName (registry σ))).
Proof.
  intros Hok Hin Hn Hk Hts. unfold getAllTests in *. rewrite run_tests_eq.
  set (σ0 := set_registry (<[ScenarioName := tests_of σ]> (registry σ)) σ).
  assert (H0 : tests_of σ0 = tests_of σ) by apply lookup_total_insert_eq.
  assert (Hdrop : drop 0 (tests_of σ0) = tests_of σ) by (by rewrite H0).
  pose proof (set_ok_NoDup _ Hok) as Hnd.
  pose proof (run_cases_seen (tests_of σ) 0 σ0 o Hdrop Hts Hnd Hin Hn Hk) as Hseen.
  destruct (run_cases_calls elapsed ScenarioName (tests_of σ) 0 σ0)
    as (evs & Hevs & _ & Hrec).
  destruct (run_cases_frame elapsed ScenarioName (tests_of σ) 0 σ0) as (_ & _ & Hlen & _).
  rewrite H0 in Hlen.
  destruct (run_cases elapsed ScenarioName 0 (tests_of σ) σ0) as [σ1 r].
  cbn [fst snd] in *. destruct r as [[] | e]; [| discriminate].
  intros _. cbv zeta. cbn [fst world registry calls set_this].
  split; [exact (Hseen eq_refl) | split; [done |]].
  exists evs. split; [done |].
  apply (Hrec eq_refl (addr o) Hnd). by apply list_elem_of_fmap_2.
Qed.
End ObserverEffects.

(** * Runs of the recorded scenario *)

Module RecordedRuns.
Import Recording.

(** The recorder is shown every case, in order, with its outcome. *)
Lemma recorder_sees_every_case :
  let res := run_tests elapsed Math (machine watched) in
  res.2 = Val tt
  ∧ world res.1 = [(0, PASSED); (1, FAILED); (2, ERROR); (3, SKIPPED)].
Proof. vm_compute. done. Qed.

(** C8 as stated fails: the recorder at address 7 is attached and four
    cases are registered, but the observer at address 5 throws when
    it is told of the second case; the run ends there with that
    exception, and the recorder has been called for the first case
    only. *)
Lemma attached_observer_misses_cases :
  let res := run_tests elapsed Math (machine disturbed) in
  addr <$> list_observers_ (this (machine disturbed)) = [5%N; 7%N]
  ∧ length (getAllTests Math (registry (machine disturbed))) = 4
  ∧ res.2 = Exc (Object std_runtime_error "observer")
  ∧ world res.1 = [(0, PASSED)]
  ∧ received 7 (calls res.1) = [0]
  ∧ received 7 (calls res.1) ≠ seq 0 4.
Proof. vm_compute. repeat split; try reflexivity. discriminate. Qed.

Lemma watched_observers : list_observers_ (this (machine watched)) = [silent 3; recorder 7].
Proof. reflexivity. Qed.

Lemma recorder_attached : recorder 7 ∈ list_observers_ (this (machine watched)).
Proof. rewrite watched_observers. right. left. Qed.

Lemma recorder_notes (infos : TestInfo) (w : list (nat * Status)) :
  id (update (recorder 7) infos w).1 = id w ++ [view infos].
Proof. reflexivity. Qed.

Lemma others_keep (o' : IRegistryObserver) :
  o' ∈ list_observers_ (this (machine watched)) → addr o' ≠ addr (recorder 7) →
  ∀ infos (w : list (nat * Status)), id (update o' infos w).1 = id w.
Proof.
  rewrite watched_observers. intros Hin Hne infos w.
  apply elem_of_cons in Hin as [-> | Hin]; [reflexivity |].
  apply elem_of_cons in Hin as [-> | Hin]; [done | by apply elem_of_nil in Hin].
Qed.

Lemma procedures_keep (t : Test) :
  t ∈ getAllTests Math (registry (machine watched)) →
  ∀ w : list (nat * Status), id (test_holder_ t w).1 = id w.
Proof.
  intros Hin w.
  change (getAllTests Math (registry (machine watched)))
    with [make_test "adds" (ret tt : M (list (nat * Status)) unit);
          make_test "fails"
            (FailureTest false (Some ("0", "0")) None equal "no" LineInfo_default);
          make_test "throws" (throw (Object std_domain_error "out of domain"));
          make_skipped_test "later" "skipped" (ret tt)] in Hin.
  repeat (apply elem_of_cons in Hin as [-> | Hin]; [reflexivity |]).
  by apply elem_of_nil in Hin.
Qed.

Lemma each_observer_updated_once_per_case_witness :
  set_ok (list_observers_ (this (machine watched))) = true
  ∧ recorder 7 ∈ list_observers_ (this (machine watched))
  ∧ (∀ infos (w : list (nat * Status)),
       id (update (recorder 7) infos w).1 = id w ++ [view infos])
  ∧ (∀ o', o' ∈ list_observers_ (this (machine watched)) → addr o' ≠ addr (recorder 7) →
           ∀ infos (w : list (nat * Status)), id (update o' infos w).1 = id w)
  ∧ (∀ t, t ∈ getAllTests Math (registry (machine watched)) →
          ∀ w : list (nat * Status), id (test_holder_ t w).1 = id w)
  ∧ (run_tests elapsed Math (machine watched)).2 = Val tt
  ∧ let σ' := (run_tests elapsed Math (machine watched)).1 in
    id (world σ') =
      id (world (machine watched)) ++
      imap (λ j t', view {| test_ref := j; test := t' |}) (getAllTests Math (registry σ'))
    ∧ length (getAllTests Math (registry σ'))
      = length (getAllTests Math (registry (machine watched)))
    ∧ ∃ evs, calls σ' = calls (machine watched) ++ evs
        ∧ received (addr (recorder 7)) evs
          = seq 0 (length (getAllTests Math (registry (machine watched)))).
Proof.
  assert (Hval : (run_tests elapsed Math (machine watched)).2 = Val tt)
    by (vm_compute; reflexivity).
  split; [reflexivity |]. split; [exact recorder_attached |].
  split; [exact recorder_notes |]. split; [exact others_keep |].
  split; [exact procedures_keep |]. split; [exact Hval |].
  exact (each_observer_updated_once_per_case elapsed Math id view (machine watched)
           (recorder 7) eq_refl recorder_attached recorder_notes others_keep
           procedures_keep Hval).
Defined.
End RecordedRuns.

(** * A second run of the sample scenario *)

Module SecondRun.
Import Sample.

(** C10 as stated fails: in a second run of the scenario the flag is
    set from the first, so the calls made to the observers find the
    results: the call for the first case finds one passed case and a
    total of four, the call for the second case finds two passed
    cases, and the total duration is not zero. *)
Lemma results_visible_during_second_run :
  let once := run_scenario (machine manager) in
  let again := drop (length (calls once)) (calls (run_scenario once)) in
  run_ (this once) = true
  ∧ (λ ev, (test_ref (ev_infos ev), run_ (ev_manager ev), getPassedCount (ev_manager ev),
            getAllTestsCount Math (ev_manager ev) registered)) <$> again !! 0
    = Some (0, true, 1, 4)
  ∧ (λ ev, (test_ref (ev_infos ev), run_ (ev_manager ev), getPassedCount (ev_manager ev),
            getAllTestsCount Math (ev_manager ev) registered)) <$> again !! 2
    = Some (1, true, 2, 4)
  ∧ Forall (λ ev, getAllTestsExecTimeMs (ev_manager ev) ≠ Duration_zero) again.
Proof.
  vm_compute. split; [reflexivity | split; [reflexivity | split; [reflexivity |]]].
  repeat constructor; discriminate.
Qed.
End SecondRun.
